(** * week3assignment.py: transit share of LA County census tracts

    A shallow embedding of the notebook script [week3assignment.py]
    (pandas / geopandas) and the properties of its pipeline:
    ingestion, column selection, percentage derivation, ranking,
    summary statistics, geometry join and the not-null filter.

    Conventions of the embedding.
    - An [int64] cell is a [Z]; the counts of the survey are far below
      2^53, so their conversion to [float64] is exact.
    - A [float64] cell is a value of [float64] below: NaN, a signed
      infinity, or a finite number kept as an exact rational.  The
      special values follow IEEE 754 as numpy applies it; rounding of
      finite results and the sign of zero are not represented.
    - A Python exception is the name of its class.
    - A table is the list of its rows in row order. *)

From Stdlib Require Import String Ascii Bool Arith ZArith QArith Qreduction Qround.
From Stdlib Require Import Lia Lqa List Permutation Sorted.
Import ListNotations.

(* ================================================================== *)
(** ** float64 cells *)

Inductive float64 : Type :=
| NaN : float64
| Inf : bool -> float64          (* [Inf true] is -inf, [Inf false] is +inf *)
| Fin : Q -> float64.

Definition of_int (z : Z) : float64 := Fin (inject_Z z).

Definition Qneg_b (q : Q) : bool := (Qnum q <? 0)%Z.
Definition Qzero_b (q : Q) : bool := (Qnum q =? 0)%Z.

(** [x / y] on float64, the result numpy's true_divide gives. *)
Definition fdiv (x y : float64) : float64 :=
  match x, y with
  | NaN, _ | _, NaN => NaN
  | Inf _, Inf _ => NaN
  | Inf s, Fin q => Inf (xorb s (Qneg_b q))
  | Fin _, Inf _ => Fin 0
  | Fin p, Fin q =>
      if Qzero_b q
      then (if Qzero_b p then NaN else Inf (Qneg_b p))
      else Fin (Qred (p / q))
  end.

Definition fmul (x y : float64) : float64 :=
  match x, y with
  | NaN, _ | _, NaN => NaN
  | Inf s, Inf t => Inf (xorb s t)
  | Inf s, Fin q | Fin q, Inf s =>
      if Qzero_b q then NaN else Inf (xorb s (Qneg_b q))
  | Fin p, Fin q => Fin (Qred (p * q))
  end.

Definition fadd (x y : float64) : float64 :=
  match x, y with
  | NaN, _ | _, NaN => NaN
  | Inf s, Inf t => if Bool.eqb s t then Inf s else NaN
  | Inf s, Fin _ | Fin _, Inf s => Inf s
  | Fin p, Fin q => Fin (Qred (p + q))
  end.

Definition fneg (x : float64) : float64 :=
  match x with
  | NaN => NaN
  | Inf s => Inf (negb s)
  | Fin q => Fin (Qred (- q))
  end.

Definition fsub (x y : float64) : float64 := fadd x (fneg y).

(** [pandas.isnull] / [notnull] on a float64 cell: only NaN is missing
    (infinities are values, the option [use_inf_as_na] is not set). *)
Definition isnull (x : float64) : bool :=
  match x with NaN => true | _ => false end.

Definition notnull (x : float64) : bool := negb (isnull x).

(** Comparisons; every comparison with NaN is false. *)
Definition flt (x y : float64) : bool :=
  match x, y with
  | NaN, _ | _, NaN => false
  | Inf s, Inf t => s && negb t
  | Inf s, Fin _ => s
  | Fin _, Inf t => negb t
  | Fin p, Fin q => negb (Qle_bool q p)
  end.

Definition feq (x y : float64) : bool :=
  match x, y with
  | NaN, _ | _, NaN => false
  | Inf s, Inf t => Bool.eqb s t
  | Inf _, Fin _ | Fin _, Inf _ => false
  | Fin p, Fin q => Qeq_bool p q
  end.

Definition fle (x y : float64) : bool := flt x y || feq x y.

(* ================================================================== *)
(** ** Exceptions *)

Inductive exn : Type := Exception (class : string).

Inductive result (A : Type) : Type :=
| Ok : A -> result A
| Raise : exn -> result A.

Arguments Ok {A} _.
Arguments Raise {A} _.

Definition bind {A B} (c : result A) (k : A -> result B) : result B :=
  match c with
  | Ok a => k a
  | Raise e => Raise e
  end.

Notation "x <- c ;; k" := (bind c (fun x => k))
  (at level 61, c at next level, right associativity).
Notation "c ;;; k" := (bind c (fun _ => k))
  (at level 61, right associativity).

(* ================================================================== *)
(** ** Percentage derivation (In[18], In[19]) *)

(** The three selected columns of one survey row. *)
Record acs_row : Type := mk_acs_row {
  GEO_ID : string;
  B08301_010E : Z;          (* transit users, excluding taxicab *)
  B08301_001E : Z           (* all commuters *)
}.

(** [(a / b) * 100] on two int64 cells: the cells are converted to
    float64, divided, and the quotient is multiplied by 100. *)
Definition transit_pct (a b : Z) : float64 :=
  fmul (fdiv (of_int a) (of_int b)) (of_int 100).

(** In[18]: the frame gains the column [transit_pct]; a row of the
    result is the selected row with the new cell appended. *)
Definition with_transit_pct (r : acs_row) : acs_row * float64 :=
  (r, transit_pct (B08301_010E r) (B08301_001E r)).

(** In[22], In[23]: the four columns are relabelled. *)
Record transit_row : Type := mk_transit_row {
  FIPS : string;
  Total_Transit_Users : Z;       (* 'Total Transit Users (excluding taxicabs)' *)
  Total_Commuters : Z;           (* 'Total Commuters' *)
  Percent_Transit_Users : float64 (* 'Percent Transit Users' *)
}.

Definition rename_columns (r : acs_row * float64) : transit_row :=
  mk_transit_row (GEO_ID (fst r)) (B08301_010E (fst r))
                 (B08301_001E (fst r)) (snd r).

Definition derive (rows : list acs_row) : list transit_row :=
  map rename_columns (map with_transit_pct rows).

(* ================================================================== *)
(** ** Ranking (In[26], In[27]) *)

Definition count_if (p : float64 -> bool) (col : list float64) : nat :=
  length (filter p col).

(** [Series.rank(ascending=0)]: pandas defaults [method='average'] and
    [na_option='keep'].  A NaN cell keeps NaN; any other cell gets the
    mean of the positions [g+1 .. g+e] its tie group occupies in the
    descending order, [g] cells being strictly greater and [e] cells
    (itself included) equal. *)
Definition rank_of (col : list float64) (x : float64) : float64 :=
  if isnull x then NaN
  else
    let g := count_if (fun y => flt x y) col in
    let e := count_if (fun y => feq x y) col in
    Fin (Qred (inject_Z (Z.of_nat g) + (inject_Z (Z.of_nat e) + 1) / 2)).

Definition rank_descending (col : list float64) : list float64 :=
  map (rank_of col) col.

(** [df['Rank'] = ...; df.set_index('Rank')]: the rank becomes the
    index label of its row. *)
Definition set_index_Rank (rows : list transit_row)
  : list (float64 * transit_row) :=
  combine (rank_descending (map Percent_Transit_Users rows)) rows.

(** Order of index labels under [sort_index()]: ascending, missing
    labels last ([na_position='last']). *)
Definition label_le (a b : float64) : bool :=
  match a, b with
  | _, NaN => true
  | NaN, _ => false
  | _, _ => fle a b
  end.

Section Sorting.
Variable A : Type.
Variable le : A -> A -> bool.

Fixpoint insert (x : A) (l : list A) : list A :=
  match l with
  | [] => [x]
  | y :: l' => if le x y then x :: l else y :: insert x l'
  end.

Definition sort (l : list A) : list A := fold_right insert [] l.
End Sorting.

Arguments insert {A} le x l.
Arguments sort {A} le l.

(** [df.sort_index()].  Rows with equal labels are kept in their
    previous relative order here; no property below depends on the
    order inside a tie group. *)
Definition sort_index (t : list (float64 * transit_row))
  : list (float64 * transit_row) :=
  sort (fun a b => label_le (fst a) (fst b)) t.

Definition rank_and_sort (rows : list transit_row)
  : list (float64 * transit_row) :=
  sort_index (set_index_Rank rows).

(** The column ['Percent Transit Users'] of an indexed table. *)
Definition percent_column (t : list (float64 * transit_row)) : list float64 :=
  map (fun r => Percent_Transit_Users (snd r)) t.

(* ================================================================== *)
(** ** Summary statistics (In[28] .. In[34]) *)

(** All reductions run with pandas' default [skipna=True]. *)
Definition dropna (col : list float64) : list float64 := filter notnull col.

Definition fsum (l : list float64) : float64 := fold_left fadd l (Fin 0).

Definition of_nat (n : nat) : float64 := of_int (Z.of_nat n).

Definition Series_count (col : list float64) : nat := length (dropna col).

Definition Series_mean (col : list float64) : float64 :=
  let v := dropna col in fdiv (fsum v) (of_nat (length v)).

Definition sort_values (l : list float64) : list float64 := sort fle l.

Definition Series_median (col : list float64) : float64 :=
  let v := sort_values (dropna col) in
  let n := length v in
  if (n =? 0)%nat then NaN
  else if Nat.odd n then nth (n / 2) v NaN
  else fdiv (fadd (nth (n / 2 - 1) v NaN) (nth (n / 2) v NaN)) (of_int 2).

(** numpy's linear interpolation between neighbours [a] and [b]. *)
Definition lerp (a b : float64) (t : Q) : float64 :=
  if Qle_bool (1 # 2) t
  then fsub b (fmul (fsub b a) (Fin (Qred (1 - t))))
  else fadd a (fmul (fsub b a) (Fin t)).

(** [Series.quantile(p)], [interpolation='linear']. *)
Definition Series_quantile (p : Q) (col : list float64) : float64 :=
  let v := sort_values (dropna col) in
  let n := length v in
  if (n =? 0)%nat then NaN
  else
    let h := (inject_Z (Z.of_nat (n - 1)) * p)%Q in
    let i := Z.to_nat (Qfloor h) in
    let j := Nat.min (i + 1) (n - 1) in
    lerp (nth i v NaN) (nth j v NaN) (Qred (h - inject_Z (Qfloor h))).

(** [Series.var()], [ddof=1]. *)
Definition Series_var (col : list float64) : float64 :=
  let v := dropna col in
  let n := length v in
  if (n <=? 1)%nat then NaN
  else
    let avg := fdiv (fsum v) (of_nat n) in
    let sq := map (fun x => fmul (fsub avg x) (fsub avg x)) v in
    fdiv (fsum sq) (of_nat (n - 1)).

(** A standard deviation is kept exact, as the square root of its
    radicand. *)
Inductive root : Type := Sqrt (radicand : float64).

Definition Series_std (col : list float64) : root := Sqrt (Series_var col).

Definition fmin (x y : float64) : float64 := if flt y x then y else x.
Definition fmax (x y : float64) : float64 := if flt x y then y else x.

Definition Series_min (col : list float64) : float64 :=
  match dropna col with
  | [] => NaN
  | x :: v => fold_left fmin v x
  end.

Definition Series_max (col : list float64) : float64 :=
  match dropna col with
  | [] => NaN
  | x :: v => fold_left fmax v x
  end.

Record description : Type := mk_description {
  d_count : nat;
  d_mean : float64;
  d_std : root;
  d_min : float64;
  d_25 : float64;
  d_50 : float64;
  d_75 : float64;
  d_max : float64
}.

Definition Series_describe (col : list float64) : description :=
  mk_description (Series_count col) (Series_mean col) (Series_std col)
                 (Series_min col)
                 (Series_quantile (1 # 4) col) (Series_quantile (1 # 2) col)
                 (Series_quantile (3 # 4) col)
                 (Series_max col).

(* ================================================================== *)
(** ** Ingestion (In[3] .. In[15]) *)

Local Open Scope string_scope.

(** A delimited file after tokenising: every header name with the raw
    text of the cells below it.  The survey extracts have a fixed
    schema with a value in every cell; the missing-value markers pandas
    recognises and its float inference are outside that schema and are
    not represented. *)
Definition csv_file : Type := list (string * list string).

Inductive Column : Type :=
| ColInt (cells : list Z)          (* dtype int64 *)
| ColObj (cells : list string).    (* dtype object, str cells *)

Definition DataFrame : Type := list (string * Column).

Definition digit_of (c : ascii) : option Z :=
  let n := nat_of_ascii c in
  if ((48 <=? n) && (n <=? 57))%nat then Some (Z.of_nat (n - 48)) else None.

Fixpoint parse_digits (s : string) (acc : Z) : option Z :=
  match s with
  | EmptyString => Some acc
  | String c s' =>
      match digit_of c with
      | Some d => parse_digits s' (10 * acc + d)%Z
      | None => None
      end
  end.

Definition in_int64 (z : Z) : bool :=
  ((- 2 ^ 63 <=? z) && (z <? 2 ^ 63))%Z.

(** The integer a cell denotes when the column is inferred as int64:
    the leading zeros of the text are lost. *)
Definition parse_int (s : string) : option Z :=
  let signed :=
    match s with
    | EmptyString => None
    | String "-"%char EmptyString | String "+"%char EmptyString => None
    | String "-"%char s' => option_map Z.opp (parse_digits s' 0)
    | String "+"%char s' => parse_digits s' 0
    | _ => parse_digits s 0
    end in
  match signed with
  | Some z => if in_int64 z then Some z else None
  | None => None
  end.

Fixpoint parse_all (cells : list string) : option (list Z) :=
  match cells with
  | [] => Some []
  | c :: cs =>
      match parse_int c, parse_all cs with
      | Some z, Some zs => Some (z :: zs)
      | _, _ => None
      end
  end.

(** Type inference of [read_csv] for a column without a [dtype]. *)
Definition infer (cells : list string) : Column :=
  match cells with
  | [] => ColObj []
  | _ => match parse_all cells with
         | Some zs => ColInt zs
         | None => ColObj cells
         end
  end.

Definition polygon : Type := list (Q * Q).

(** A polygon file as geopandas loads it: the property columns and the
    geometry column. *)
Record GeoDataFrame : Type := mk_GeoDataFrame {
  attributes : list (string * list string);
  geometry_column : list polygon
}.

(** The files of the working directory, by path. *)
Record files : Type := mk_files {
  csv_at : string -> option csv_file;
  geojson_at : string -> option GeoDataFrame
}.

(** [pd.read_csv(path, dtype={c: str for c in as_str})]. *)
Definition read_csv (fs : files) (path : string) (as_str : list string)
  : result DataFrame :=
  match csv_at fs path with
  | None => Raise (Exception "FileNotFoundError")
  | Some f =>
      Ok (map (fun nc =>
                 (fst nc,
                  if existsb (String.eqb (fst nc)) as_str
                  then ColObj (snd nc)
                  else infer (snd nc))) f)
  end.

Fixpoint lookup {V : Type} (name : string) (cols : list (string * V))
  : option V :=
  match cols with
  | [] => None
  | (n, c) :: rest => if String.eqb n name then Some c else lookup name rest
  end.

(** [df.GEO_ID]: attribute access to a column. *)
Definition getattr (df : DataFrame) (name : string) : result Column :=
  match lookup name df with
  | Some c => Ok c
  | None => Raise (Exception "AttributeError")
  end.

(** [df[names]]: selection of a list of columns. *)
Fixpoint getitem (df : DataFrame) (names : list string) : result DataFrame :=
  match names with
  | [] => Ok []
  | n :: ns =>
      match lookup n df with
      | None => Raise (Exception "KeyError")
      | Some c => rest <- getitem df ns ;; Ok ((n, c) :: rest)
      end
  end.

Definition columns_to_keep : list string :=
  ["GEO_ID"; "B08301_010E"; "B08301_001E"].

Definition columns_to_keep2 : list string :=
  ["GEO_ID"; "B08301_010E"; "B08301_001E"].

(** In[3] .. In[11]: both tables are read twice, the second time with
    [GEO_ID] forced to [str]; the [.GEO_ID.head()] cells in between
    need the column to exist.  The second read of [ACS_10] names the
    2022 file. *)
Definition ingest (fs : files) : result (DataFrame * DataFrame) :=
  ACS_22 <- read_csv fs "Census_Data/ACS_22.csv" [] ;;
  ACS_10 <- read_csv fs "Census_Data/ACS_10.csv" [] ;;
  getattr ACS_22 "GEO_ID" ;;;
  getattr ACS_10 "GEO_ID" ;;;
  ACS_22 <- read_csv fs "Census_Data/ACS_22.csv" ["GEO_ID"] ;;
  ACS_10 <- read_csv fs "Census_Data/ACS_22.csv" ["GEO_ID"] ;;
  getattr ACS_22 "GEO_ID" ;;;
  getattr ACS_10 "GEO_ID" ;;;
  Ok (ACS_22, ACS_10).

(** The rows of a reduced frame, as the division of In[18] meets them.
    Dividing object columns raises TypeError.  [GEO_ID] is an object
    column after [ingest]; an int64 identifier would be refused by the
    merge with ValueError, which is reported here. *)
Definition reduced_rows (df : DataFrame) : result (list acs_row) :=
  match lookup "B08301_010E" df, lookup "B08301_001E" df with
  | Some (ColInt a), Some (ColInt b) =>
      match lookup "GEO_ID" df with
      | Some (ColObj ids) =>
          Ok (map (fun r => mk_acs_row (fst r) (fst (snd r)) (snd (snd r)))
                  (combine ids (combine a b)))
      | Some (ColInt _) => Raise (Exception "ValueError")
      | None => Raise (Exception "KeyError")
      end
  | Some _, Some _ => Raise (Exception "TypeError")
  | _, _ => Raise (Exception "KeyError")
  end.

(* ================================================================== *)
(** ** Geometry join (In[36] .. In[39]) and filter (In[43]) *)

Module Tract.
Record row : Type := mk {
  CT20 : string;
  geometry : polygon;
  FIPS : option string       (* [None] is a missing (NaN) cell *)
}.
End Tract.

Definition read_file (fs : files) (path : string) : result GeoDataFrame :=
  match geojson_at fs path with
  | Some g => Ok g
  | None => Raise (Exception "DriverError")
  end.

(** [tracts[['CT20','geometry']]]. *)
Definition subset_tracts (g : GeoDataFrame)
  : result (list (string * polygon)) :=
  match lookup "CT20" (attributes g) with
  | Some cells => Ok (combine cells (geometry_column g))
  | None => Raise (Exception "KeyError")
  end.

(** ['06' + '037' + series]. *)
Definition full_identifier (ct : string) : string := ("06" ++ "037") ++ ct.

(** [target['FIPS'] = series]: the series is aligned on the row labels
    0, 1, ... of the target; a label the series lacks gets NaN. *)
Definition setitem_FIPS (target : list (string * polygon))
                        (series : list string) : list Tract.row :=
  map (fun ir => Tract.mk (fst (snd ir)) (snd (snd ir))
                          (nth_error series (fst ir)))
      (combine (seq 0 (List.length target)) target).

Definition key_match (k : option string) (s : string) : bool :=
  match k with
  | Some k' => String.eqb k' s
  | None => false
  end.

(** [left.merge(right, on="FIPS")]: [how='inner'] by default.  A joined
    row is kept as the pair of its two source rows, whose key cells
    pandas stores once. *)
Definition merge_on_FIPS (left : list Tract.row) (right : list transit_row)
  : list (Tract.row * transit_row) :=
  flat_map (fun l =>
              map (pair l)
                  (filter (fun r => key_match (Tract.FIPS l) (FIPS r)) right))
           left.

(** [t[t['Percent Transit Users'].notnull()]]. *)
Definition filter_notnull (t : list (Tract.row * transit_row))
  : list (Tract.row * transit_row) :=
  filter (fun r => notnull (Percent_Transit_Users (snd r))) t.

(* ================================================================== *)
(** ** The script *)

Record outputs : Type := mk_outputs {
  ACS_22B : list (float64 * transit_row);
  ACS_10B : list (float64 * transit_row);
  mean_22 : float64;
  mean_10 : float64;
  median_22 : float64;
  median_10 : float64;
  describe_22 : description;
  describe_10 : description;
  tracts_transit22 : list (Tract.row * transit_row);
  tracts_transit10 : list (Tract.row * transit_row);
  tracts_transit22b : list (Tract.row * transit_row);
  tracts_transit10b : list (Tract.row * transit_row)
}.

Definition geojson_path : string :=
  "Census_Data/Census_Tracts_2020-Copy1.geojson".

Definition script (fs : files) : result outputs :=
  tables <- ingest fs ;;
  sel22 <- getitem (fst tables) columns_to_keep ;;
  sel10 <- getitem (snd tables) columns_to_keep2 ;;
  rows22 <- reduced_rows sel22 ;;
  rows10 <- reduced_rows sel10 ;;
  let acs22 := rank_and_sort (derive rows22) in
  let acs10 := rank_and_sort (derive rows10) in
  g1 <- read_file fs geojson_path ;;
  g2 <- read_file fs geojson_path ;;
  sub1 <- subset_tracts g1 ;;
  let tracts := setitem_FIPS sub1 (map (fun r => full_identifier (fst r)) sub1) in
  sub2 <- subset_tracts g2 ;;
  let tracts2 :=
    setitem_FIPS sub2 (map (fun r => full_identifier (Tract.CT20 r)) tracts) in
  let tt22 := merge_on_FIPS tracts (map snd acs22) in
  let tt10 := merge_on_FIPS tracts2 (map snd acs10) in
  Ok (mk_outputs acs22 acs10
        (Series_mean (percent_column acs22))
        (Series_mean (percent_column acs10))
        (Series_median (percent_column acs22))
        (Series_median (percent_column acs10))
        (Series_describe (percent_column acs22))
        (Series_describe (percent_column acs10))
        tt22 tt10 (filter_notnull tt22) (filter_notnull tt10)).

(* ================================================================== *)
(** ** Inspection cells *)


Definition df_tail {A : Type} (t : list A) : list A :=
  skipn (List.length t - 5) t.

(* ================================================================== *)
(** ** Vocabulary of the properties *)


(** The ranks of the rows whose percentage is defined, in row order. *)
Definition defined_ranks (t : list (float64 * transit_row)) : list float64 :=
  map fst (filter (fun r => notnull (Percent_Transit_Users (snd r))) t).

(** [kept_rows P t b]: [b] is [t] with the rows that fail [P] deleted,
    every other row standing unchanged, in its place. *)
Inductive kept_rows {A : Type} (P : A -> Prop) : list A -> list A -> Prop :=
| kept_nil : kept_rows P [] []
| kept_keep x t b : P x -> kept_rows P t b -> kept_rows P (x :: t) (x :: b)
| kept_drop x t b : ~ P x -> kept_rows P t b -> kept_rows P (x :: t) b.

(** What In[26] and In[27] leave in a table [t]: the rows of a ranked
    table, in ascending order of rank, so that no defined percentage is
    followed by a greater one; first the rows with a rank and a defined
    percentage, then the rows with neither; and a row of rank 1 has the
    highest defined percentage. *)
Definition ranked_order (t : list (float64 * transit_row)) : Prop :=
  (exists rows, Permutation t (set_index_Rank rows)) /\
  StronglySorted (fun a b => label_le (fst a) (fst b) = true) t /\
  StronglySorted
    (fun a b =>
       Percent_Transit_Users (snd a) <> NaN ->
       Percent_Transit_Users (snd b) <> NaN ->
       fle (Percent_Transit_Users (snd b)) (Percent_Transit_Users (snd a))
       = true) t /\
  (exists ranked unranked,
      t = (ranked ++ unranked)%list /\
      Forall (fun r => fst r <> NaN /\ Percent_Transit_Users (snd r) <> NaN)
             ranked /\
      Forall (fun r => fst r = NaN /\ Percent_Transit_Users (snd r) = NaN)
             unranked) /\
  (forall k r,
      In (k, r) t -> feq k (Fin 1) = true ->
      forall k' r',
        In (k', r') t -> Percent_Transit_Users r' <> NaN ->
        fle (Percent_Transit_Users r') (Percent_Transit_Users r) = true).

(** A tract table whose [FIPS] cells are built from its own [CT20]
    cells. *)
Definition with_own_FIPS (sub : list (string * polygon)) : list Tract.row :=
  map (fun r => Tract.mk (fst r) (snd r) (Some (full_identifier (fst r)))) sub.


(** A text made of decimal digits only, and of at least one. *)
Definition digits (s : string) : Prop :=
  s <> EmptyString /\ parse_digits s 0 <> None.

(** Twice the average rank of a defined cell [x] among the cells [l]. *)
Definition rank_weight (l : list float64) (x : float64) : nat :=
  2 * count_if (flt x) l + count_if (feq x) l + 1.

(** ** Sample inputs *)

(** The two example tracts of the survey, and a third one. *)
Definition sample_rows : list acs_row :=
  [ mk_acs_row "06037101110" 50 1000;
    mk_acs_row "06037101111" 0 0;
    mk_acs_row "06037101122" 30 100 ].

Definition sample_acs_22 : csv_file :=
  [ ("GEO_ID", ["06037101110"; "06037101111"; "06037101122"]);
    ("NAME", ["Census Tract 1011.10"; "Census Tract 1011.11";
              "Census Tract 1011.22"]);
    ("B08301_001E", ["1000"; "0"; "100"]);
    ("B08301_010E", ["50"; "0"; "30"]) ].

Definition sample_acs_10 : csv_file :=
  [ ("GEO_ID", ["06037101110"]);
    ("NAME", ["Census Tract 1011.10"]);
    ("B08301_001E", ["800"]);
    ("B08301_010E", ["80"]) ].

Definition sample_tracts : GeoDataFrame :=
  mk_GeoDataFrame
    [ ("CT20", ["101122"; "101110"; "101111"; "980001"]);
      ("LABEL", ["1011.22"; "1011.10"; "1011.11"; "9800.01"]) ]
    [ [(0, 0); (1, 0); (1, 1)]; [(1, 0); (2, 0); (2, 1)];
      [(2, 0); (3, 0); (3, 1)]; [(3, 0); (4, 0); (4, 1)] ].

Definition sample_files : files :=
  mk_files
    (fun path =>
       if String.eqb path "Census_Data/ACS_22.csv" then Some sample_acs_22
       else if String.eqb path "Census_Data/ACS_10.csv" then Some sample_acs_10
       else None)
    (fun path =>
       if String.eqb path geojson_path then Some sample_tracts else None).

(** Seven tracts: two tied at 5 percent, two without commuters. *)
Definition sample_seven_rows : list acs_row :=
  [ mk_acs_row "06037101110" 50 1000;
    mk_acs_row "06037101111" 0 0;
    mk_acs_row "06037101122" 30 100;
    mk_acs_row "06037101210" 5 100;
    mk_acs_row "06037101220" 57 100;
    mk_acs_row "06037101300" 0 0;
    mk_acs_row "06037101400" 12 100 ].

(** A 2022 extract without the transit column. *)
Definition sample_acs_no_transit : csv_file :=
  [ ("GEO_ID", ["06037101110"; "06037101111"]);
    ("NAME", ["Census Tract 1011.10"; "Census Tract 1011.11"]);
    ("B08301_001E", ["1000"; "0"]) ].

Definition sample_files_no_transit : files :=
  mk_files
    (fun path =>
       if String.eqb path "Census_Data/ACS_22.csv"
       then Some sample_acs_no_transit
       else if String.eqb path "Census_Data/ACS_10.csv" then Some sample_acs_10
       else None)
    (fun path =>
       if String.eqb path geojson_path then Some sample_tracts else None).

(* ================================================================== *)
(** * Properties *)

(** ** Percentage derivation *)

Lemma Qzero_b_inject (z : Z) : Qzero_b (inject_Z z) = (z =? 0)%Z.
Proof. reflexivity. Qed.

Lemma Qneg_b_inject (z : Z) : Qneg_b (inject_Z z) = (z <? 0)%Z.
Proof. reflexivity. Qed.

(** The three outcomes of [(a / b) * 100] on int64 cells. *)
Lemma transit_pct_cases (a b : Z) :
  (b = 0%Z /\ a = 0%Z /\ transit_pct a b = NaN) \/
  (b = 0%Z /\ a <> 0%Z /\ transit_pct a b = Inf (a <? 0)%Z) \/
  (b <> 0%Z /\
   transit_pct a b = Fin (Qred (Qred (inject_Z a / inject_Z b) * 100))).
Proof.
  unfold transit_pct, of_int, fdiv.
  rewrite !Qzero_b_inject, Qneg_b_inject.
  destruct (Z.eqb_spec b 0) as [Hb | Hb].
  - destruct (Z.eqb_spec a 0) as [Ha | Ha].
    + left. auto.
    + right; left. repeat split; trivial.
      cbn. now rewrite xorb_false_r.
  - right; right. split; trivial.
Qed.

Lemma derive_In (rows : list acs_row) (d : transit_row) :
  In d (derive rows) <->
  exists r, In r rows /\ d = rename_columns (with_transit_pct r).
Proof.
  unfold derive. rewrite map_map, in_map_iff.
  split; intros [r [H1 H2]]; exists r; split; auto.
Qed.


(** C1, as stated, fails: a row with 5 transit users and 0 commuters
    has a zero total-commuter count, and its percentage is +inf, which
    is not NaN. *)
Lemma zero_total_positive_transit_is_inf :
  let r := mk_acs_row "06037101110" 5 0 in
  let d := rename_columns (with_transit_pct r) in
  In d (derive [r]) /\
  Percent_Transit_Users d = Inf false /\
  ~ (Percent_Transit_Users d = NaN <-> Total_Commuters d = 0%Z).
Proof.
  cbv zeta. split; [left; reflexivity |].
  split; [reflexivity |].
  intros [_ H]. specialize (H eq_refl). discriminate H.
Qed.

(** C1 (amended): the derivation gives every row a percentage cell and
    raises nothing.  The cell of a row is NaN if and only if both the
    total-commuter count and the transit-user count are 0; in
    particular, for counts with 0 <= transit <= total, it is NaN if and
    only if the total-commuter count is 0.  A zero total with a
    non-zero transit count gives a signed infinity.  A zero total is
    never recorded as a finite number, so never as zero. *)
Theorem transit_pct_undefined (rows : list acs_row) :
  List.length (derive rows) = List.length rows /\
  Forall (fun d =>
            let t := Total_Transit_Users d in
            let T := Total_Commuters d in
            let p := Percent_Transit_Users d in
            (p = NaN <-> T = 0%Z /\ t = 0%Z) /\
            ((0 <= t <= T)%Z -> (p = NaN <-> T = 0%Z)) /\
            (T = 0%Z -> t <> 0%Z -> p = Inf (t <? 0)%Z) /\
            (T = 0%Z -> forall q, p <> Fin q))
         (derive rows).
Proof.
  split.
  - unfold derive. now rewrite !length_map.
  - apply Forall_forall. intros d Hd.
    apply derive_In in Hd. destruct Hd as [r [_ ->]]. cbn.
    destruct (transit_pct_cases (B08301_010E r) (B08301_001E r))
      as [[Hb [Ha E]] | [[Hb [Ha E]] | [Hb E]]]; rewrite E.
    + intuition (try discriminate; try congruence).
    + intuition (try discriminate; try congruence; try lia).
    + intuition (try discriminate; try congruence).
Qed.



(* ================================================================== *)
(** ** The order of float64 cells *)

Lemma Qlt_b_true (p q : Q) : negb (Qle_bool q p) = true <-> p < q.
Proof.
  rewrite negb_true_iff. destruct (Qle_bool q p) eqn:E.
  - apply Qle_bool_iff in E. split; [discriminate | lra].
  - split; trivial. intros _. apply Qnot_le_lt. intros H.
    apply Qle_bool_iff in H. congruence.
Qed.

Lemma Qlt_b_false (p q : Q) : negb (Qle_bool q p) = false <-> q <= p.
Proof. rewrite negb_false_iff. apply Qle_bool_iff. Qed.

Lemma Qeq_b_false (p q : Q) : Qeq_bool p q = false <-> ~ p == q.
Proof.
  destruct (Qeq_bool p q) eqn:E.
  - apply Qeq_bool_iff in E. split; [discriminate | contradiction].
  - split; trivial. intros _ H. apply Qeq_bool_iff in H. congruence.
Qed.

(** Reduces a goal about [flt] and [feq] on cells to rational
    arithmetic. *)
Ltac float_order :=
  repeat match goal with
         | x : float64 |- _ => destruct x as [ | [ | ] | ? ]
         end;
  cbn in *;
  repeat match goal with
         | H : negb (Qle_bool _ _) = true |- _ => apply Qlt_b_true in H
         | H : negb (Qle_bool _ _) = false |- _ => apply Qlt_b_false in H
         | H : Qeq_bool _ _ = true |- _ => apply Qeq_bool_iff in H
         | H : Qeq_bool _ _ = false |- _ => apply Qeq_b_false in H
         end;
  rewrite ?Qlt_b_true, ?Qlt_b_false, ?Qeq_bool_iff, ?Qeq_b_false;
  try discriminate; try congruence; try tauto; try lra.

Lemma feq_refl (x : float64) : x <> NaN -> feq x x = true.
Proof. intros H. float_order. Qed.

Lemma feq_sym (x y : float64) : feq x y = true -> feq y x = true.
Proof. intros H. float_order. Qed.

Lemma feq_trans (x y z : float64) :
  feq x y = true -> feq y z = true -> feq x z = true.
Proof. intros H1 H2. float_order. Qed.

Lemma flt_irrefl (x : float64) : flt x x = false.
Proof. float_order. Qed.

Lemma flt_trans (x y z : float64) :
  flt x y = true -> flt y z = true -> flt x z = true.
Proof. intros H1 H2. float_order. Qed.

Lemma flt_feq_trans (x y z : float64) :
  flt x y = true -> feq y z = true -> flt x z = true.
Proof. intros H1 H2. float_order. Qed.

Lemma feq_flt_trans (x y z : float64) :
  feq x y = true -> flt y z = true -> flt x z = true.
Proof. intros H1 H2. float_order. Qed.

Lemma flt_not_feq (x y : float64) : flt x y = true -> feq x y = false.
Proof. intros H. float_order. Qed.

Lemma flt_asym (x y : float64) : flt x y = true -> flt y x = false.
Proof. intros H. float_order. Qed.

Lemma float_trichotomy (x y : float64) :
  x <> NaN -> y <> NaN ->
  flt x y = true \/ feq x y = true \/ flt y x = true.
Proof.
  intros Hx Hy. float_order.
Qed.

Lemma fle_total (x y : float64) :
  x <> NaN -> y <> NaN -> fle x y = true \/ fle y x = true.
Proof.
  intros Hx Hy. unfold fle.
  destruct (float_trichotomy x y Hx Hy) as [H | [H | H]].
  - left. now rewrite H.
  - left. rewrite H. apply orb_true_r.
  - right. now rewrite H.
Qed.

Lemma fle_trans (x y z : float64) :
  fle x y = true -> fle y z = true -> fle x z = true.
Proof.
  unfold fle. rewrite !orb_true_iff.
  intros [H1 | H1] [H2 | H2].
  - left. eapply flt_trans; eauto.
  - left. eapply flt_feq_trans; eauto.
  - left. eapply feq_flt_trans; eauto.
  - right. eapply feq_trans; eauto.
Qed.

Lemma fle_not_flt (x y : float64) :
  x <> NaN -> y <> NaN -> flt x y = false -> fle y x = true.
Proof.
  intros Hx Hy H. unfold fle.
  destruct (float_trichotomy x y Hx Hy) as [H' | [H' | H']].
  - congruence.
  - apply feq_sym in H'. rewrite H'. apply orb_true_r.
  - now rewrite H'.
Qed.

Lemma isnull_NaN (x : float64) : isnull x = true <-> x = NaN.
Proof. destruct x; cbn; split; congruence. Qed.

Lemma notnull_NaN (x : float64) : notnull x = true <-> x <> NaN.
Proof. destruct x; cbn; split; congruence. Qed.

(* ================================================================== *)
(** ** Counting cells *)

Lemma count_if_cons (p : float64 -> bool) (x : float64) (l : list float64) :
  count_if p (x :: l) = ((if p x then 1 else 0) + count_if p l)%nat.
Proof. unfold count_if. cbn. now destruct (p x). Qed.

Section Counting.
Variables p q r : float64 -> bool.

Lemma count_if_pos (x : float64) (l : list float64) :
  In x l -> p x = true -> (1 <= count_if p l)%nat.
Proof.
  induction l as [ | a l IH]; intros Hin Hp; [contradiction |].
  rewrite count_if_cons. destruct Hin as [-> | Hin].
  - rewrite Hp. lia.
  - specialize (IH Hin Hp). lia.
Qed.

Lemma count_if_zero (l : list float64) :
  count_if p l = 0%nat -> forall z, In z l -> p z = false.
Proof.
  induction l as [ | a l IH]; intros H z Hin; [contradiction |].
  rewrite count_if_cons in H. destruct (p a) eqn:E; [lia |].
  destruct Hin as [<- | Hin]; auto.
Qed.


Lemma count_if_ext (l : list float64) :
  (forall z, In z l -> p z = q z) -> count_if p l = count_if q l.
Proof.
  intros H. unfold count_if. f_equal. now apply filter_ext_in.
Qed.

(** Two disjoint classes that both lie inside a third. *)
Lemma count_if_disjoint (l : list float64) :
  (forall z, In z l -> p z = true -> r z = true) ->
  (forall z, In z l -> q z = true -> r z = true) ->
  (forall z, In z l -> p z = true -> q z = false) ->
  (count_if p l + count_if q l <= count_if r l)%nat.
Proof.
  induction l as [ | a l IH]; intros Hp Hq Hd; [reflexivity |].
  rewrite !count_if_cons.
  assert (IH' : (count_if p l + count_if q l <= count_if r l)%nat).
  { apply IH; intros z Hz; [apply Hp | apply Hq | apply Hd]; now right. }
  pose proof (Hp a (or_introl eq_refl)) as Hpa.
  pose proof (Hq a (or_introl eq_refl)) as Hqa.
  pose proof (Hd a (or_introl eq_refl)) as Hda.
  destruct (p a), (q a), (r a);
    try specialize (Hpa eq_refl); try specialize (Hqa eq_refl);
    try specialize (Hda eq_refl); try congruence; lia.
Qed.

Lemma count_if_dropna (l : list float64) :
  (forall z, p z = true -> z <> NaN) ->
  count_if p (dropna l) = count_if p l.
Proof.
  intros H. induction l as [ | a l IH]; [reflexivity |].
  unfold dropna in *. cbn [filter].
  destruct (notnull a) eqn:E; rewrite !count_if_cons, ?IH; trivial.
  destruct (p a) eqn:Ea; trivial.
  apply H in Ea. apply notnull_NaN in Ea. congruence.
Qed.
End Counting.

Lemma dropna_In (l : list float64) (x : float64) :
  In x (dropna l) <-> In x l /\ x <> NaN.
Proof. unfold dropna. rewrite filter_In, notnull_NaN. tauto. Qed.

Lemma dropna_idempotent (l : list float64) : dropna (dropna l) = dropna l.
Proof.
  unfold dropna. induction l as [ | a l IH]; [reflexivity |].
  cbn [filter]. destruct (notnull a) eqn:E; trivial.
  cbn [filter]. now rewrite E, IH.
Qed.

(* ================================================================== *)
(** ** Ranking *)

Lemma Qred_inject_Z (z : Z) : Qred (inject_Z z) = inject_Z z.
Proof.
  unfold Qred, inject_Z.
  pose proof (Z.ggcd_gcd z 1) as Hg.
  pose proof (Z.ggcd_correct_divisors z 1) as Hd.
  destruct (Z.ggcd z 1) as [g [aa bb]]. cbn in *.
  rewrite Z.gcd_1_r in Hg. subst g. destruct Hd as [H1 H2].
  rewrite Z.mul_1_l in *. subst. reflexivity.
Qed.

Lemma rank_of_NaN (col : list float64) (x : float64) :
  rank_of col x = NaN <-> x = NaN.
Proof.
  unfold rank_of. destruct x; cbn; split; congruence.
Qed.

Lemma rank_of_value (col : list float64) (x : float64) :
  x <> NaN ->
  rank_of col x =
  Fin (Qred (inject_Z (Z.of_nat (count_if (flt x) col)) +
             (inject_Z (Z.of_nat (count_if (feq x) col)) + 1) / 2)).
Proof.
  intros H. unfold rank_of. destruct x; [contradiction | | ]; reflexivity.
Qed.

(** The cells above [x], together with the ties of [x], are all above
    any cell below [x]. *)
Lemma count_above (col : list float64) (x y : float64) :
  flt y x = true ->
  (count_if (flt x) col + count_if (feq x) col <= count_if (flt y) col)%nat.
Proof.
  intros H. apply count_if_disjoint; intros z _ Hz.
  - eapply flt_trans; eauto.
  - eapply flt_feq_trans; eauto.
  - now apply flt_not_feq.
Qed.

Lemma count_defined (col : list float64) (x : float64) :
  (count_if (flt x) col + count_if (feq x) col <= Series_count col)%nat.
Proof.
  change (Series_count col) with (count_if notnull col).
  apply count_if_disjoint; intros z _ Hz.
  - apply notnull_NaN. intros ->. destruct x as [ | [ | ] | ?]; discriminate.
  - apply notnull_NaN. intros ->. destruct x as [ | [ | ] | ?]; discriminate.
  - now apply flt_not_feq.
Qed.

Lemma inject_nat_le (m n : nat) :
  (m <= n)%nat -> inject_Z (Z.of_nat m) <= inject_Z (Z.of_nat n).
Proof. intros H. rewrite <- Zle_Qle. lia. Qed.

Lemma inject_nat_plus (m n : nat) :
  inject_Z (Z.of_nat (m + n)) == inject_Z (Z.of_nat m) + inject_Z (Z.of_nat n).
Proof. rewrite Nat2Z.inj_add, inject_Z_plus. reflexivity. Qed.

(** A greater percentage has a strictly smaller rank. *)
Lemma rank_of_lt (col : list float64) (x y : float64) :
  In x col -> x <> NaN -> y <> NaN ->
  flt y x = true -> flt (rank_of col x) (rank_of col y) = true.
Proof.
  intros Hin Hx Hy H.
  rewrite (rank_of_value col x Hx), (rank_of_value col y Hy).
  cbn [flt]. apply Qlt_b_true. rewrite !Qred_correct.
  pose proof (count_above col x y H) as Hc.
  pose proof (count_if_pos (feq x) x col Hin (feq_refl x Hx)) as He.
  apply inject_nat_le in Hc. rewrite inject_nat_plus in Hc.
  apply inject_nat_le in He.
  pose proof (inject_nat_le _ _ (Nat.le_0_l (count_if (feq y) col))) as Hy0.
  cbn in He, Hy0.
  change (inject_Z 1) with 1 in He. change (inject_Z 0) with 0 in Hy0.
  revert Hc He Hy0.
  generalize (inject_Z (Z.of_nat (count_if (flt x) col)))
             (inject_Z (Z.of_nat (count_if (feq x) col)))
             (inject_Z (Z.of_nat (count_if (flt y) col)))
             (inject_Z (Z.of_nat (count_if (feq y) col))).
  intros gx ex gy ey Hc He Hy0.
  unfold Qdiv. change (/ 2) with (1 # 2). lra.
Qed.

Lemma flt_feq_compat (x y z : float64) :
  feq x y = true -> flt x z = flt y z /\ feq x z = feq y z.
Proof.
  intros H.
  destruct (flt y z) eqn:E1, (feq y z) eqn:E2;
    destruct (flt x z) eqn:E3, (feq x z) eqn:E4; split; trivial;
    float_order.
Qed.

(** Tied cells share their rank. *)
Lemma rank_of_tie (col : list float64) (x y : float64) :
  feq x y = true -> rank_of col x = rank_of col y.
Proof.
  intros H.
  assert (Hx : x <> NaN) by (intros ->; discriminate).
  assert (Hy : y <> NaN) by (intros ->; destruct x as [ | [ | ] | ?]; discriminate).
  rewrite (rank_of_value col x Hx), (rank_of_value col y Hy).
  rewrite (count_if_ext (flt x) (flt y) col), (count_if_ext (feq x) (feq y) col);
    trivial; intros z _; now apply flt_feq_compat.
Qed.

Lemma rank_of_lt_iff (col : list float64) (x y : float64) :
  In x col -> In y col -> x <> NaN -> y <> NaN ->
  (flt (rank_of col x) (rank_of col y) = true <-> flt y x = true).
Proof.
  intros Hix Hiy Hx Hy. split; [ | now apply rank_of_lt].
  intros H. destruct (float_trichotomy y x Hy Hx) as [H' | [H' | H']]; trivial.
  - rewrite (rank_of_tie col y x H'), flt_irrefl in H. discriminate.
  - apply (rank_of_lt col y x Hiy Hy Hx) in H'.
    apply flt_asym in H'. congruence.
Qed.

Lemma set_index_Rank_map (rows : list transit_row) :
  set_index_Rank rows =
  map (fun r => (rank_of (map Percent_Transit_Users rows)
                         (Percent_Transit_Users r), r)) rows.
Proof.
  unfold set_index_Rank, rank_descending.
  generalize (rank_of (map Percent_Transit_Users rows)) as f.
  intros f. induction rows as [ | r rows IH]; [reflexivity |].
  cbn. now rewrite IH.
Qed.

Lemma defined_ranks_map (rows : list transit_row) :
  defined_ranks (set_index_Rank rows) =
  map (rank_of (map Percent_Transit_Users rows))
      (dropna (map Percent_Transit_Users rows)).
Proof.
  rewrite set_index_Rank_map. unfold defined_ranks, dropna.
  generalize (rank_of (map Percent_Transit_Users rows)) as f.
  intros f. induction rows as [ | r rows IH]; [reflexivity |].
  cbn. destruct (notnull (Percent_Transit_Users r)); cbn; now rewrite IH.
Qed.


Lemma dropna_defined (col : list float64) :
  Forall (fun x => x <> NaN) (dropna col).
Proof. apply Forall_forall. intros x Hx. now apply dropna_In in Hx. Qed.

Lemma feq_defined (x z : float64) : feq x z = true -> z <> NaN.
Proof. intros H ->. destruct x as [ | [ | ] | ?]; discriminate. Qed.





Lemma set_index_Rank_In (rows : list transit_row) (k : float64)
      (r : transit_row) :
  In (k, r) (set_index_Rank rows) <->
  In r rows /\
  k = rank_of (map Percent_Transit_Users rows) (Percent_Transit_Users r).
Proof.
  rewrite set_index_Rank_map, in_map_iff. split.
  - intros [r' [E Hin]]. injection E as <- <-. auto.
  - intros [Hin ->]. exists r. auto.
Qed.




(* ================================================================== *)
(** ** Sorting *)

Section SortingFacts.
Variable A : Type.
Variable le : A -> A -> bool.
Hypothesis le_total : forall a b, le a b = true \/ le b a = true.
Hypothesis le_trans :
  forall a b c, le a b = true -> le b c = true -> le a c = true.

Lemma insert_perm (x : A) (l : list A) : Permutation (insert le x l) (x :: l).
Proof.
  induction l as [ | y l IH]; cbn; [reflexivity |].
  destruct (le x y); [reflexivity |].
  rewrite IH. apply perm_swap.
Qed.

Lemma sort_perm (l : list A) : Permutation (sort le l) l.
Proof.
  induction l as [ | x l IH]; cbn; [reflexivity |].
  rewrite insert_perm. now constructor.
Qed.

Lemma insert_sorted (x : A) (l : list A) :
  StronglySorted (fun a b => le a b = true) l ->
  StronglySorted (fun a b => le a b = true) (insert le x l).
Proof.
  induction 1 as [ | y l Hs IH Hy]; cbn.
  - repeat constructor.
  - destruct (le x y) eqn:E.
    + constructor; [now constructor |].
      constructor; trivial.
      eapply Forall_impl; [ | exact Hy]. intros z Hz. eapply le_trans; eauto.
    + constructor; trivial.
      assert (Hyx : le y x = true) by (destruct (le_total x y); congruence).
      eapply Permutation_Forall; [symmetry; apply insert_perm |].
      now constructor.
Qed.

Lemma sort_sorted (l : list A) :
  StronglySorted (fun a b => le a b = true) (sort le l).
Proof.
  induction l as [ | x l IH]; cbn; [constructor | now apply insert_sorted].
Qed.
End SortingFacts.

Lemma label_le_total (a b : float64) :
  label_le a b = true \/ label_le b a = true.
Proof.
  destruct (isnull b) eqn:Eb.
  - apply isnull_NaN in Eb. subst. left. now destruct a.
  - destruct (isnull a) eqn:Ea.
    + apply isnull_NaN in Ea. subst. right. now destruct b.
    + assert (Ha : a <> NaN) by (intros ->; discriminate).
      assert (Hb : b <> NaN) by (intros ->; discriminate).
      destruct (fle_total a b Ha Hb); [left | right];
        destruct a, b; trivial; contradiction.
Qed.

Lemma label_le_trans (a b c : float64) :
  label_le a b = true -> label_le b c = true -> label_le a c = true.
Proof.
  intros H1 H2.
  destruct c as [ | sc | qc]; [now destruct a | |];
    (destruct b as [ | sb | qb]; [destruct a; discriminate | |]);
    (destruct a as [ | sa | qa]; [discriminate | |]);
    cbn [label_le] in *; eapply fle_trans; eauto.
Qed.

Lemma sort_index_perm (t : list (float64 * transit_row)) :
  Permutation (sort_index t) t.
Proof. apply sort_perm. Qed.

Lemma sort_index_sorted (t : list (float64 * transit_row)) :
  StronglySorted (fun a b => label_le (fst a) (fst b) = true) (sort_index t).
Proof.
  unfold sort_index.
  apply (sort_sorted (float64 * transit_row)
                     (fun a b => label_le (fst a) (fst b))).
  - intros a b. apply label_le_total.
  - intros a b c. apply label_le_trans.
Qed.

(** In a table sorted by label the rows without a label come last. *)
Lemma sorted_split (t : list (float64 * transit_row)) :
  StronglySorted (fun a b => label_le (fst a) (fst b) = true) t ->
  Forall (fun r => fst r = NaN <-> Percent_Transit_Users (snd r) = NaN) t ->
  exists ranked unranked,
    t = (ranked ++ unranked)%list /\
    Forall (fun r => fst r <> NaN /\ Percent_Transit_Users (snd r) <> NaN)
           ranked /\
    Forall (fun r => fst r = NaN /\ Percent_Transit_Users (snd r) = NaN)
           unranked.
Proof.
  induction 1 as [ | a t Hs IH Ha]; intros Hk.
  - exists [], []. repeat split; constructor.
  - inversion Hk as [ | ? ? Hka Hkt]; subst.
    destruct (isnull (fst a)) eqn:E.
    + apply isnull_NaN in E. exists [], (a :: t). repeat split; [constructor |].
      rewrite Forall_forall in *. intros r [<- | Hr].
      * tauto.
      * specialize (Ha r Hr). specialize (Hkt r Hr).
        rewrite E in Ha. destruct (fst r); try discriminate. tauto.
    + destruct (IH Hkt) as [l1 [l2 [-> [H1 H2]]]].
      exists (a :: l1), l2. repeat split; trivial.
      constructor; trivial.
      assert (fst a <> NaN) by (intros Hn; rewrite Hn in E; discriminate).
      tauto.
Qed.

Lemma StronglySorted_impl {A : Type} (R R' : A -> A -> Prop) (l : list A) :
  (forall a b, In a l -> In b l -> R a b -> R' a b) ->
  StronglySorted R l -> StronglySorted R' l.
Proof.
  intros Himp H. induction H as [ | a l Hs IH Ha]; constructor.
  - apply IH. intros x y Hx Hy. apply Himp; now right.
  - rewrite Forall_forall in *. intros b Hb.
    apply Himp; [now left | now right | now apply Ha].
Qed.

Lemma label_le_not_flt (a b : float64) :
  label_le a b = true -> flt b a = true -> a = NaN.
Proof.
  intros H1 H2.
  assert (Hb : b <> NaN) by (intros ->; discriminate).
  destruct a as [ | sa | qa]; trivial; exfalso;
    (destruct b as [ | sb | qb]; [contradiction | | ]);
    cbn [label_le] in H1; unfold fle in H1; apply orb_true_iff in H1;
    destruct H1 as [H1 | H1];
    solve [ apply flt_asym in H1; congruence
          | apply feq_sym in H1; apply flt_not_feq in H2; congruence ].
Qed.

(** A cell of rank 1 has no cell above it. *)
Lemma rank_one_highest (col : list float64) (x : float64) :
  In x col -> x <> NaN -> feq (rank_of col x) (Fin 1) = true ->
  forall y, In y col -> y <> NaN -> fle y x = true.
Proof.
  intros Hin Hx H y Hy Hy'.
  apply fle_not_flt; trivial.
  apply (count_if_zero (flt x) col); trivial.
  rewrite (rank_of_value col x Hx) in H. cbn [feq] in H.
  apply Qeq_bool_iff in H. rewrite Qred_correct in H.
  pose proof (count_if_pos (feq x) x col Hin (feq_refl x Hx)) as He.
  apply inject_nat_le in He. change (inject_Z (Z.of_nat 1)) with 1 in He.
  assert (Hg : inject_Z (Z.of_nat (count_if (flt x) col)) <= inject_Z 0).
  { change (inject_Z 0) with 0. revert H He.
    generalize (inject_Z (Z.of_nat (count_if (flt x) col)))
               (inject_Z (Z.of_nat (count_if (feq x) col))).
    intros g e H He. unfold Qdiv in H. change (/ 2) with (1 # 2) in H. lra. }
  rewrite <- Zle_Qle in Hg. lia.
Qed.

Lemma rank_and_sort_ranked_order (rows : list transit_row) :
  ranked_order (rank_and_sort rows).
Proof.
  unfold rank_and_sort.
  pose proof (sort_index_perm (set_index_Rank rows)) as Hp.
  assert (Hin : forall k r,
             In (k, r) (sort_index (set_index_Rank rows)) ->
             In r rows /\
             k = rank_of (map Percent_Transit_Users rows)
                         (Percent_Transit_Users r)).
  { intros k r H. apply set_index_Rank_In.
    eapply Permutation_in; eauto. }
  split; [ | split; [ | split; [ | split]]].
  - exists rows. exact Hp.
  - apply sort_index_sorted.
  - eapply StronglySorted_impl; [ | apply sort_index_sorted].
    intros [k1 r1] [k2 r2] H1 H2 Hle Hd1 Hd2. cbn in *.
    destruct (Hin k1 r1 H1) as [Hr1 ->]. destruct (Hin k2 r2 H2) as [Hr2 ->].
    apply fle_not_flt; trivial.
    destruct (flt (Percent_Transit_Users r1) (Percent_Transit_Users r2)) eqn:E;
      trivial.
    pose proof (rank_of_lt (map Percent_Transit_Users rows) _ _
                           (in_map Percent_Transit_Users rows r2 Hr2)
                           Hd2 Hd1 E) as Hlt.
    apply (label_le_not_flt _ _ Hle), rank_of_NaN in Hlt. contradiction.
  - apply sorted_split; [apply sort_index_sorted |].
    apply Forall_forall. intros [k r] H. cbn.
    destruct (Hin k r H) as [_ ->]. apply rank_of_NaN.
  - intros k r H H1 k' r' H' Hd'.
    destruct (Hin k r H) as [Hr ->]. destruct (Hin k' r' H') as [Hr' _].
    assert (Hd : Percent_Transit_Users r <> NaN).
    { intros E. rewrite E in H1. discriminate. }
    apply (rank_one_highest (map Percent_Transit_Users rows)); trivial;
      now apply in_map.
Qed.

(* ================================================================== *)
(** ** The steps of the script *)

Ltac bind_inv H :=
  repeat match type of H with
         | bind (Ok _) _ = _ => cbn [bind] in H
         | bind ?c _ = Ok _ =>
             let E := fresh "E" in
             destruct c eqn:E; cbn [bind] in H; [ | discriminate H]
         end.

Lemma ingest_Ok (fs : files) (a b : DataFrame) :
  ingest fs = Ok (a, b) ->
  read_csv fs "Census_Data/ACS_22.csv" ["GEO_ID"] = Ok a /\ b = a.
Proof.
  unfold ingest. intros H. bind_inv H.
  injection H as <- <-. auto.
Qed.

Lemma setitem_FIPS_shift (target : list (string * polygon))
      (x : string) (series : list string) (s : nat) :
  map (fun ir => Tract.mk (fst (snd ir)) (snd (snd ir))
                          (nth_error (x :: series) (fst ir)))
      (combine (seq (S s) (List.length target)) target) =
  map (fun ir => Tract.mk (fst (snd ir)) (snd (snd ir))
                          (nth_error series (fst ir)))
      (combine (seq s (List.length target)) target).
Proof.
  revert s. induction target as [ | a target IH]; intros s; [reflexivity |].
  cbn [List.length seq combine map]. f_equal. apply IH.
Qed.

(** A series computed from the target's own rows fills every cell. *)
Lemma setitem_FIPS_own (f : string * polygon -> string)
      (target : list (string * polygon)) :
  setitem_FIPS target (map f target) =
  map (fun r => Tract.mk (fst r) (snd r) (Some (f r))) target.
Proof.
  unfold setitem_FIPS. induction target as [ | a target IH]; [reflexivity |].
  cbn [List.length seq combine map]. f_equal.
  rewrite setitem_FIPS_shift. exact IH.
Qed.

Lemma script_Ok (fs : files) (out : outputs) :
  script fs = Ok out ->
  exists rows sub,
    ACS_22B out = rank_and_sort (derive rows) /\
    ACS_10B out = rank_and_sort (derive rows) /\
    mean_22 out = Series_mean (percent_column (ACS_22B out)) /\
    mean_10 out = Series_mean (percent_column (ACS_10B out)) /\
    median_22 out = Series_median (percent_column (ACS_22B out)) /\
    median_10 out = Series_median (percent_column (ACS_10B out)) /\
    describe_22 out = Series_describe (percent_column (ACS_22B out)) /\
    describe_10 out = Series_describe (percent_column (ACS_10B out)) /\
    tracts_transit22 out =
      merge_on_FIPS (with_own_FIPS sub) (map snd (ACS_22B out)) /\
    tracts_transit10 out =
      merge_on_FIPS (with_own_FIPS sub) (map snd (ACS_10B out)) /\
    tracts_transit22b out = filter_notnull (tracts_transit22 out) /\
    tracts_transit10b out = filter_notnull (tracts_transit10 out).
Proof.
  unfold script, columns_to_keep, columns_to_keep2. intros H.
  destruct (ingest fs) as [[a b] | e] eqn:Ei; cbn [bind] in H;
    [ | discriminate H].
  apply ingest_Ok in Ei. destruct Ei as [_ ->]. cbn [fst snd] in H.
  bind_inv H.
  rewrite (setitem_FIPS_own (fun r => full_identifier (fst r)) l0) in H.
  fold (with_own_FIPS l0) in H.
  assert (Hs : map (fun r => full_identifier (Tract.CT20 r)) (with_own_FIPS l0)
               = map (fun r => full_identifier (fst r)) l0).
  { unfold with_own_FIPS. rewrite map_map. reflexivity. }
  rewrite Hs, setitem_FIPS_own in H. fold (with_own_FIPS l0) in H.
  injection H as <-. exists l, l0.
  cbn [ACS_22B ACS_10B mean_22 mean_10 median_22 median_10
       describe_22 describe_10 tracts_transit22 tracts_transit10
       tracts_transit22b tracts_transit10b].
  repeat split.
Qed.

(* ================================================================== *)
(** ** Ranked tables *)



(* ================================================================== *)
(** ** The two survey years *)

(** C9: whatever the files hold, a run that completes produces for
    2010 what it produces for 2022: both tables come from one read of
    ACS_22.csv, both tract tables from one geojson file, and the ranked
    tables, the statistics, the joined and the filtered tables are
    pairwise equal. *)
Theorem pipeline_2010_equals_2022 (fs : files) (out : outputs) :
  script fs = Ok out ->
  (exists df,
      ingest fs = Ok (df, df) /\
      read_csv fs "Census_Data/ACS_22.csv" ["GEO_ID"] = Ok df) /\
  ACS_10B out = ACS_22B out /\
  mean_10 out = mean_22 out /\
  median_10 out = median_22 out /\
  describe_10 out = describe_22 out /\
  tracts_transit10 out = tracts_transit22 out /\
  tracts_transit10b out = tracts_transit22b out.
Proof.
  intros H. split.
  - unfold script in H.
    destruct (ingest fs) as [[a b] | e] eqn:Ei; [ | discriminate H].
    destruct (ingest_Ok fs a b Ei) as [Hr ->]. exists a. auto.
  - apply script_Ok in H.
    destruct H as [rows [sub [H22 [H10 [Hm22 [Hm10 [Hd22 [Hd10
                  [Hs22 [Hs10 [Ht22 [Ht10 [Hb22 Hb10]]]]]]]]]]]]].
    assert (E : ACS_10B out = ACS_22B out) by congruence.
    assert (Et : tracts_transit10 out = tracts_transit22 out) by congruence.
    repeat split; congruence.
Qed.

Lemma pipeline_2010_equals_2022_witness :
  exists out,
    script sample_files = Ok out /\
    (exists df,
        ingest sample_files = Ok (df, df) /\
        read_csv sample_files "Census_Data/ACS_22.csv" ["GEO_ID"] = Ok df) /\
    ACS_10B out = ACS_22B out /\
    mean_10 out = mean_22 out /\
    median_10 out = median_22 out /\
    describe_10 out = describe_22 out /\
    tracts_transit10 out = tracts_transit22 out /\
    tracts_transit10b out = tracts_transit22b out.
Proof.
  eexists. split; [reflexivity |].
  apply (pipeline_2010_equals_2022 sample_files). reflexivity.
Defined.

(* ================================================================== *)
(** ** Geometry join *)

Lemma merge_on_FIPS_In (left : list Tract.row) (right : list transit_row)
      (l : Tract.row) (r : transit_row) :
  In (l, r) (merge_on_FIPS left right) <->
  In l left /\ In r right /\ Tract.FIPS l = Some (FIPS r).
Proof.
  unfold merge_on_FIPS. rewrite in_flat_map. split.
  - intros [l' [Hl H]]. apply in_map_iff in H.
    destruct H as [r' [E H]]. injection E as -> ->.
    apply filter_In in H. destruct H as [Hr Hk].
    repeat split; trivial.
    unfold key_match in Hk. destruct (Tract.FIPS l) as [k | ]; [ | discriminate].
    apply String.eqb_eq in Hk. now subst.
  - intros [Hl [Hr Hk]]. exists l. split; trivial.
    apply in_map. apply filter_In. split; trivial.
    rewrite Hk. cbn. apply String.eqb_refl.
Qed.




(* ================================================================== *)
(** ** The not-null filter *)

Lemma filter_notnull_kept (t : list (Tract.row * transit_row)) :
  kept_rows (fun r => Percent_Transit_Users (snd r) <> NaN)
            t (filter_notnull t).
Proof.
  unfold filter_notnull. induction t as [ | x t IH]; cbn [filter].
  - constructor.
  - destruct (notnull (Percent_Transit_Users (snd x))) eqn:E.
    + apply kept_keep; trivial. now apply notnull_NaN.
    + apply kept_drop; trivial. rewrite <- notnull_NaN. congruence.
Qed.

(** What [kept_rows] says of membership. *)
Lemma kept_rows_In {A : Type} (P : A -> Prop) (t b : list A) :
  kept_rows P t b -> forall x, In x b <-> In x t /\ P x.
Proof.
  induction 1 as [ | x t b Hx _ IH | x t b Hx _ IH]; intros y; cbn.
  - tauto.
  - rewrite IH. split; [intros [<- | ?]; tauto | tauto].
  - rewrite IH. split; [tauto | intros [[<- | ?] ?]; tauto].
Qed.

(** C10: in both joined tables the filter of In[43] deletes the rows
    whose percentage is NaN and nothing else: the rows with a defined
    percentage stay, unchanged, in their order. *)
Theorem notnull_filter_keeps_defined_rows (fs : files) (out : outputs) :
  script fs = Ok out ->
  kept_rows (fun r => Percent_Transit_Users (snd r) <> NaN)
            (tracts_transit22 out) (tracts_transit22b out) /\
  kept_rows (fun r => Percent_Transit_Users (snd r) <> NaN)
            (tracts_transit10 out) (tracts_transit10b out).
Proof.
  intros H. apply script_Ok in H.
  destruct H as [rows [sub [_ [_ [_ [_ [_ [_ [_ [_ [_ [_ [Hb22 Hb10]]]]]]]]]]]]].
  rewrite Hb22, Hb10. split; apply filter_notnull_kept.
Qed.

Lemma notnull_filter_keeps_defined_rows_witness :
  exists out,
    script sample_files = Ok out /\
    kept_rows (fun r => Percent_Transit_Users (snd r) <> NaN)
              (tracts_transit22 out) (tracts_transit22b out) /\
    kept_rows (fun r => Percent_Transit_Users (snd r) <> NaN)
              (tracts_transit10 out) (tracts_transit10b out).
Proof.
  eexists. split; [reflexivity |].
  apply (notnull_filter_keeps_defined_rows sample_files). reflexivity.
Defined.

(* ================================================================== *)
(** ** Summary statistics *)

Lemma Permutation_dropna (l l' : list float64) :
  Permutation l l' -> Permutation (dropna l) (dropna l').
Proof.
  unfold dropna. induction 1 as [ | x l l' _ IH | x y l | l l' l'' _ IH1 _ IH2].
  - constructor.
  - cbn. destruct (notnull x); auto.
  - cbn. destruct (notnull x), (notnull y); auto. apply perm_swap.
  - etransitivity; eauto.
Qed.

Lemma Permutation_length_3_inv {A : Type} (a b c : A) (v : list A) :
  Permutation [a; b; c] v ->
  v = [a; b; c] \/ v = [a; c; b] \/ v = [b; a; c] \/
  v = [b; c; a] \/ v = [c; a; b] \/ v = [c; b; a].
Proof.
  intros H. pose proof (Permutation_length H) as Hlen.
  destruct v as [ | x [ | y [ | z [ | ? ?]]]]; try discriminate Hlen.
  assert (Hx : In x [a; b; c]).
  { apply (Permutation_in x (Permutation_sym H)). now left. }
  destruct Hx as [<- | [<- | [<- | []]]].
  - apply Permutation_cons_inv, Permutation_length_2_inv in H.
    destruct H as [H | H]; injection H as <- <-; auto.
  - assert (H' : Permutation (b :: [a; c]) (b :: [y; z])).
    { etransitivity; [apply perm_swap | exact H]. }
    apply Permutation_cons_inv, Permutation_length_2_inv in H'.
    destruct H' as [H' | H']; injection H' as <- <-; auto.
  - assert (H' : Permutation (c :: [a; b]) (c :: [y; z])).
    { etransitivity; [ | exact H].
      change [a; b; c] with ([a; b] ++ [c])%list.
      apply Permutation_cons_append. }
    apply Permutation_cons_inv, Permutation_length_2_inv in H'.
    destruct H' as [H' | H']; injection H' as <- <-; auto 6.
Qed.

(** C5: every statistic of the script is computed from the defined
    cells alone: the mean, the median and each output of describe are
    those of the column with its NaN cells removed.  A column holding
    2.0, 4.0, 6.0 and two NaN cells, in any order, has mean 4.0 and
    median 4.0, while zeros in place of the NaN cells would give the
    mean 2.4. *)
Theorem statistics_skip_undefined (col : list float64) :
  Series_mean col = Series_mean (dropna col) /\
  Series_median col = Series_median (dropna col) /\
  Series_describe col = Series_describe (dropna col) /\
  (Permutation col [Fin 2; Fin 4; Fin 6; NaN; NaN] ->
   Series_mean col = Fin 4 /\ Series_median col = Fin 4) /\
  Series_mean [Fin 2; Fin 4; Fin 6; Fin 0; Fin 0] = Fin (12 # 5).
Proof.
  split; [ | split; [ | split; [ | split]]].
  - unfold Series_mean. now rewrite dropna_idempotent.
  - unfold Series_median. now rewrite dropna_idempotent.
  - unfold Series_describe, Series_count, Series_mean, Series_std, Series_var,
      Series_min, Series_max, Series_quantile.
    now rewrite dropna_idempotent.
  - intros H. apply Permutation_dropna in H.
    change (dropna [Fin 2; Fin 4; Fin 6; NaN; NaN])
      with [Fin 2; Fin 4; Fin 6] in H.
    apply Permutation_sym, Permutation_length_3_inv in H.
    unfold Series_mean, Series_median.
    destruct H as [H | [H | [H | [H | [H | H]]]]]; rewrite H;
      split; reflexivity.
  - reflexivity.
Qed.

(* ================================================================== *)
(** ** Ingestion *)

Lemma lookup_map_None {V W : Type} (h : string * V -> W) (name : string)
      (f : list (string * V)) :
  lookup name f = None ->
  lookup name (map (fun nc => (fst nc, h nc)) f) = None.
Proof.
  induction f as [ | [n c] f IH]; cbn; trivial.
  destruct (String.eqb n name); [discriminate | exact IH].
Qed.

Lemma lookup_map_Some {V W : Type} (h : string * V -> W) (name : string)
      (f : list (string * V)) (c : V) :
  lookup name f = Some c ->
  lookup name (map (fun nc => (fst nc, h nc)) f) = Some (h (name, c)).
Proof.
  induction f as [ | [n c'] f IH]; cbn; [discriminate |].
  destruct (String.eqb_spec n name) as [-> | Hn]; [ | exact IH].
  now intros [= ->].
Qed.

(** With [dtype str] the identifier column holds the text of the file,
    leading zeros included. *)
Lemma read_csv_str_keeps_text (fs : files) (path : string) (f : csv_file)
      (cells : list string) :
  csv_at fs path = Some f ->
  lookup "GEO_ID" f = Some cells ->
  exists df,
    read_csv fs path ["GEO_ID"] = Ok df /\
    lookup "GEO_ID" df = Some (ColObj cells).
Proof.
  intros Hf Hc. unfold read_csv. rewrite Hf. eexists. split; [reflexivity |].
  rewrite (lookup_map_Some _ _ _ _ Hc). reflexivity.
Qed.

Lemma getitem_missing (df : DataFrame) (names : list string) (c : string) :
  In c names -> lookup c df = None ->
  getitem df names = Raise (Exception "KeyError").
Proof.
  intros Hin Hc. induction names as [ | n ns IH]; [contradiction |].
  cbn. destruct (lookup n df) eqn:E; trivial.
  destruct Hin as [-> | Hin]; [congruence |].
  now rewrite (IH Hin).
Qed.

(** C4: the claim holds of the design, not of the code.  On files
    whose two extracts differ, the table labelled 2010 is the 2022
    extract: In[9] names ACS_22.csv.  The identifier column of both
    tables is text with its leading zeros; a read without the dtype
    loses them. *)
Lemma ingest_reads_2022_file_twice :
  exists df22 df10,
    ingest sample_files = Ok (df22, df10) /\
    df10 = df22 /\
    read_csv sample_files "Census_Data/ACS_22.csv" ["GEO_ID"] = Ok df10 /\
    read_csv sample_files "Census_Data/ACS_10.csv" ["GEO_ID"] <> Ok df10 /\
    lookup "GEO_ID" df10 =
      Some (ColObj ["06037101110"; "06037101111"; "06037101122"]) /\
    (exists df, read_csv sample_files "Census_Data/ACS_22.csv" [] = Ok df /\
                lookup "GEO_ID" df =
                  Some (ColInt [6037101110; 6037101111; 6037101122]%Z)).
Proof.
  do 2 eexists. split; [reflexivity |].
  split; [reflexivity |]. split; [reflexivity |].
  split; [discriminate |]. split; [reflexivity |].
  eexists. split; reflexivity.
Qed.

Lemma read_csv_lookup (fs : files) (path : string) (as_str : list string)
      (f : csv_file) :
  csv_at fs path = Some f ->
  exists df,
    read_csv fs path as_str = Ok df /\
    forall c,
      match lookup c f with
      | None => lookup c df = None
      | Some _ => exists col, lookup c df = Some col
      end.
Proof.
  intros Hf. unfold read_csv. rewrite Hf. eexists. split; [reflexivity |].
  intros c. destruct (lookup c f) as [cells | ] eqn:E.
  - eexists. apply (lookup_map_Some _ _ _ _ E).
  - now apply lookup_map_None.
Qed.

(** C8, as stated, fails: with the transit column missing from the 2022
    extract the run stops with KeyError, not MalformedInputError. *)
Lemma missing_column_is_KeyError :
  lookup "B08301_010E" sample_acs_no_transit = None /\
  script sample_files_no_transit = Raise (Exception "KeyError") /\
  script sample_files_no_transit <> Raise (Exception "MalformedInputError").
Proof.
  split; [reflexivity |]. split; [reflexivity | discriminate].
Qed.

(** C8 (amended): when one of the three expected columns is missing
    from the 2022 extract, the run stops with an exception and produces
    no table: AttributeError, raised by the first [.GEO_ID] access, when
    [GEO_ID] is missing from either extract, and otherwise KeyError,
    raised by the column selection. *)
Theorem missing_column_raises (fs : files) (f22 f10 : csv_file) (c : string) :
  csv_at fs "Census_Data/ACS_22.csv" = Some f22 ->
  csv_at fs "Census_Data/ACS_10.csv" = Some f10 ->
  In c columns_to_keep ->
  lookup c f22 = None ->
  script fs =
  Raise (Exception
           match lookup "GEO_ID" f22, lookup "GEO_ID" f10 with
           | Some _, Some _ => "KeyError"
           | _, _ => "AttributeError"
           end).
Proof.
  intros H22 H10 Hc Hmiss.
  destruct (read_csv_lookup fs _ [] f22 H22) as [a [Ea La]].
  destruct (read_csv_lookup fs _ [] f10 H10) as [b [Eb Lb]].
  destruct (read_csv_lookup fs _ ["GEO_ID"] f22 H22) as [d [Ed Ld]].
  unfold script, ingest. rewrite Ea, Eb, Ed. cbn [bind]. unfold getattr.
  pose proof (La "GEO_ID") as La'. pose proof (Lb "GEO_ID") as Lb'.
  pose proof (Ld "GEO_ID") as Ld'.
  destruct (lookup "GEO_ID" f22) as [g22 | ].
  - destruct La' as [ca ->]. destruct Ld' as [cd ->]. cbn [bind].
    destruct (lookup "GEO_ID" f10) as [g10 | ].
    + destruct Lb' as [cb ->]. cbn [bind fst snd].
      specialize (Ld c). rewrite Hmiss in Ld.
      now rewrite (getitem_missing d columns_to_keep c Hc Ld).
    + now rewrite Lb'.
  - now rewrite La'.
Qed.

Lemma missing_column_raises_witness :
  script sample_files_no_transit = Raise (Exception "KeyError").
Proof.
  apply (missing_column_raises sample_files_no_transit
           sample_acs_no_transit sample_acs_10 "B08301_010E").
  - reflexivity.
  - reflexivity.
  - cbn. tauto.
  - reflexivity.
Defined.

(* ================================================================== *)
(** * Further properties of the script *)

(** ** Reading the extracts *)



Lemma parse_int_leading_zero (s : string) :
  digits s -> parse_int (String "0"%char s) = parse_int s.
Proof.
  intros [Hne Hd]. destruct s as [ | c s']; [contradiction |].
  destruct c as [b0 b1 b2 b3 b4 b5 b6 b7].
  destruct b0, b1, b2, b3, b4, b5, b6, b7;
    try (exfalso; apply Hd; reflexivity); reflexivity.
Qed.

Lemma parse_all_leading_zero (cells : list string) :
  Forall digits cells ->
  parse_all (map (String "0"%char) cells) = parse_all cells.
Proof.
  induction 1 as [ | c cells Hc _ IH]; [reflexivity |].
  cbn [map parse_all]. now rewrite (parse_int_leading_zero c Hc), IH.
Qed.

(** X2: a read without a dtype does not see leading zeros.  A column
    of digit-only cells that is read as int64 is read as the same
    int64 column when every cell is written with one more zero in
    front. *)
Theorem untyped_read_drops_leading_zero (cells : list string) (zs : list Z) :
  Forall digits cells ->
  infer cells = ColInt zs ->
  infer (map (String "0"%char) cells) = ColInt zs.
Proof.
  intros Hd Hi. destruct cells as [ | c cells]; [discriminate Hi |].
  unfold infer in *. rewrite (parse_all_leading_zero (c :: cells) Hd).
  cbn [map]. destruct (parse_all (c :: cells)); [exact Hi | discriminate Hi].
Qed.

Lemma untyped_read_drops_leading_zero_witness :
  infer (map (String "0"%char) ["6037101110"; "6037101111"]) =
  ColInt [6037101110; 6037101111]%Z.
Proof.
  apply untyped_read_drops_leading_zero.
  - repeat constructor; discriminate.
  - reflexivity.
Defined.

(** X3: the run needs both extracts to exist, the 2010 one too, whose
    cells it never uses: if either file is missing the first reads of
    In[3] stop the run with FileNotFoundError. *)
Theorem script_needs_both_extracts (fs : files) :
  csv_at fs "Census_Data/ACS_22.csv" = None \/
  csv_at fs "Census_Data/ACS_10.csv" = None ->
  script fs = Raise (Exception "FileNotFoundError").
Proof.
  intros H. unfold script, ingest, read_csv.
  destruct (csv_at fs "Census_Data/ACS_22.csv"); cbn [bind]; trivial.
  destruct H as [H | H]; [discriminate H |]. now rewrite H.
Qed.

Lemma script_needs_both_extracts_witness :
  script (mk_files (fun path =>
                      if String.eqb path "Census_Data/ACS_22.csv"
                      then Some sample_acs_22 else None)
                   (geojson_at sample_files))
  = Raise (Exception "FileNotFoundError").
Proof.
  apply script_needs_both_extracts. right. reflexivity.
Defined.

(** X4: no output depends on the cells of ACS_10.csv.  Two working
    directories with the same 2022 extract and the same polygon file,
    each with a 2010 extract that has a [GEO_ID] column, give the same
    result. *)
Theorem script_ignores_2010_cells (fs fs' : files) (f10 f10' : csv_file) :
  csv_at fs "Census_Data/ACS_22.csv" = csv_at fs' "Census_Data/ACS_22.csv" ->
  geojson_at fs geojson_path = geojson_at fs' geojson_path ->
  csv_at fs "Census_Data/ACS_10.csv" = Some f10 ->
  csv_at fs' "Census_Data/ACS_10.csv" = Some f10' ->
  lookup "GEO_ID" f10 <> None ->
  lookup "GEO_ID" f10' <> None ->
  script fs = script fs'.
Proof.
  intros H22 Hg H10 H10' Hc Hc'.
  destruct (read_csv_lookup fs _ [] f10 H10) as [b [Eb Lb]].
  destruct (read_csv_lookup fs' _ [] f10' H10') as [b' [Eb' Lb']].
  specialize (Lb "GEO_ID"). specialize (Lb' "GEO_ID").
  destruct (lookup "GEO_ID" f10); [ | contradiction].
  destruct (lookup "GEO_ID" f10'); [ | contradiction].
  destruct Lb as [col Lb]. destruct Lb' as [col' Lb'].
  assert (Gb : getattr b "GEO_ID" = Ok col) by (unfold getattr; now rewrite Lb).
  assert (Gb' : getattr b' "GEO_ID" = Ok col')
    by (unfold getattr; now rewrite Lb').
  assert (R : forall d, read_csv fs "Census_Data/ACS_22.csv" d =
                        read_csv fs' "Census_Data/ACS_22.csv" d).
  { intros d. unfold read_csv. now rewrite H22. }
  unfold script, ingest, read_file.
  rewrite Eb, Eb', !R, Hg.
  destruct (read_csv fs' "Census_Data/ACS_22.csv" []); cbn [bind]; trivial.
  destruct (getattr d "GEO_ID"); cbn [bind]; trivial.
  rewrite Gb, Gb'. reflexivity.
Qed.

Lemma script_ignores_2010_cells_witness :
  script sample_files =
  script (mk_files (fun path =>
                      if String.eqb path "Census_Data/ACS_10.csv"
                      then Some sample_acs_no_transit
                      else csv_at sample_files path)
                   (geojson_at sample_files)).
Proof.
  apply (script_ignores_2010_cells
           sample_files _ sample_acs_10 sample_acs_no_transit);
    try reflexivity; discriminate.
Defined.

(** X5: a column selection [df[names]] succeeds exactly when every
    requested name is a column of the frame, and then it holds the
    requested names in the requested order, each with the column the
    frame has under that name. *)
Theorem getitem_selects (df : DataFrame) (names : list string) :
  ((exists sel, getitem df names = Ok sel) <->
   (forall n, In n names -> lookup n df <> None)) /\
  (forall sel,
      getitem df names = Ok sel ->
      map fst sel = names /\
      Forall (fun nc => lookup (fst nc) df = Some (snd nc)) sel).
Proof.
  induction names as [ | n ns [IH1 IH2]].
  - split.
    + split; [intros _ n [] | intros _; exists []; reflexivity].
    + intros sel [= <-]. split; constructor.
  - cbn [getitem]. destruct (lookup n df) as [c | ] eqn:E.
    + destruct (getitem df ns) as [rest | e] eqn:Er; cbn [bind].
      * split.
        -- split; [ | intros _; eexists; reflexivity].
           intros _ m [<- | Hm]; [congruence |].
           apply IH1; trivial. now exists rest.
        -- intros sel [= <-]. destruct (IH2 rest eq_refl) as [Hn Hf].
           split; [cbn; now rewrite Hn | constructor; trivial].
      * split.
        -- split; [intros [sel Hs]; discriminate Hs |].
           intros H. exfalso.
           destruct IH1 as [_ IH1]. destruct IH1 as [sel Hs].
           { intros m Hm. apply H. now right. }
           discriminate Hs.
        -- intros sel Hs. discriminate Hs.
    + split.
      * split; [intros [sel Hs]; discriminate Hs |].
        intros H. exfalso. apply (H n); [now left | exact E].
      * intros sel Hs. discriminate Hs.
Qed.

(* ================================================================== *)
(** ** The percentage and the rank *)



(** X7: with or without ties, among the rows with a defined percentage
    a row has a smaller rank than another exactly when its percentage
    is greater, rows with equal percentages have the same rank, and
    every rank lies between 1 and the count of defined rows. *)
Theorem rank_order_with_ties (rows : list transit_row)
        (k1 k2 : float64) (r1 r2 : transit_row) :
  let col := map Percent_Transit_Users rows in
  let t := set_index_Rank rows in
  In (k1, r1) t -> In (k2, r2) t ->
  Percent_Transit_Users r1 <> NaN -> Percent_Transit_Users r2 <> NaN ->
  (flt k1 k2 = true <->
   flt (Percent_Transit_Users r2) (Percent_Transit_Users r1) = true) /\
  (feq (Percent_Transit_Users r1) (Percent_Transit_Users r2) = true ->
   k1 = k2) /\
  fle (Fin 1) k1 = true /\
  fle k1 (of_nat (Series_count col)) = true.
Proof.
  intros col t H1 H2 Hd1 Hd2.
  apply set_index_Rank_In in H1, H2.
  destruct H1 as [H1 ->], H2 as [H2 ->]. fold col.
  assert (Hi1 : In (Percent_Transit_Users r1) col) by now apply in_map.
  assert (Hi2 : In (Percent_Transit_Users r2) col) by now apply in_map.
  split; [now apply rank_of_lt_iff |].
  split; [apply rank_of_tie |].
  rewrite (rank_of_value col _ Hd1).
  pose proof (count_defined col (Percent_Transit_Users r1)) as Hk.
  pose proof (count_if_pos (feq (Percent_Transit_Users r1)) _ col Hi1
                           (feq_refl _ Hd1)) as He.
  apply inject_nat_le in Hk. rewrite inject_nat_plus in Hk.
  apply inject_nat_le in He. change (inject_Z (Z.of_nat 1)) with 1 in He.
  pose proof (inject_nat_le _ _
                (Nat.le_0_l (count_if (flt (Percent_Transit_Users r1)) col)))
    as Hg.
  change (inject_Z (Z.of_nat 0)) with 0 in Hg.
  unfold of_nat, of_int, fle. cbn [flt feq].
  revert Hk He Hg.
  generalize (inject_Z (Z.of_nat (count_if (flt (Percent_Transit_Users r1)) col)))
             (inject_Z (Z.of_nat (count_if (feq (Percent_Transit_Users r1)) col)))
             (inject_Z (Z.of_nat (Series_count col))).
  intros g e K Hk He Hg.
  assert (Hlo : 1 <= g + (e + 1) / 2)
    by (unfold Qdiv; change (/ 2) with (1 # 2); lra).
  assert (Hhi : g + (e + 1) / 2 <= K)
    by (unfold Qdiv; change (/ 2) with (1 # 2); lra).
  rewrite <- (Qred_correct (g + (e + 1) / 2)) in Hlo, Hhi.
  split; apply orb_true_iff.
  - destruct (Qeq_bool 1 (Qred (g + (e + 1) / 2))) eqn:E; [now right | left].
    apply Qlt_b_true. apply Qeq_b_false in E. lra.
  - destruct (Qeq_bool (Qred (g + (e + 1) / 2)) K) eqn:E; [now right | left].
    apply Qlt_b_true. apply Qeq_b_false in E. lra.
Qed.

Lemma rank_order_with_ties_witness :
  let rows := derive sample_seven_rows in
  let r1 := mk_transit_row "06037101110" 50 1000 (Fin 5) in
  let r2 := mk_transit_row "06037101210" 5 100 (Fin 5) in
  (flt (Fin (9 # 2)) (Fin (9 # 2)) = true <->
   flt (Percent_Transit_Users r2) (Percent_Transit_Users r1) = true) /\
  (feq (Percent_Transit_Users r1) (Percent_Transit_Users r2) = true ->
   Fin (9 # 2) = Fin (9 # 2)) /\
  fle (Fin 1) (Fin (9 # 2)) = true /\
  fle (Fin (9 # 2))
      (of_nat (Series_count (map Percent_Transit_Users rows))) = true.
Proof.
  cbv zeta.
  apply (rank_order_with_ties (derive sample_seven_rows)
           (Fin (9 # 2)) (Fin (9 # 2))
           (mk_transit_row "06037101110" 50 1000 (Fin 5))
           (mk_transit_row "06037101210" 5 100 (Fin 5))).
  - vm_compute. auto 10.
  - vm_compute. auto 10.
  - discriminate.
  - discriminate.
Defined.

Lemma count_if_perm (p : float64 -> bool) (l l' : list float64) :
  Permutation l l' -> count_if p l = count_if p l'.
Proof.
  induction 1 as [ | x l l' _ IH | x y l | l l' l'' _ IH1 _ IH2].
  - reflexivity.
  - rewrite !count_if_cons. now rewrite IH.
  - rewrite !count_if_cons. lia.
  - congruence.
Qed.

Lemma rank_of_perm (col col' : list float64) (x : float64) :
  Permutation col col' -> rank_of col x = rank_of col' x.
Proof.
  intros H. unfold rank_of.
  now rewrite (count_if_perm (fun y => flt x y) col col' H),
              (count_if_perm (fun y => feq x y) col col' H).
Qed.

(** X8: the rank of a row does not depend on the order of the rows:
    ranking a reordered table gives the same rows with the same ranks,
    reordered the same way. *)
Theorem ranking_row_order_independent (rows rows' : list transit_row) :
  Permutation rows rows' ->
  Permutation (set_index_Rank rows) (set_index_Rank rows').
Proof.
  intros H. rewrite !set_index_Rank_map.
  rewrite (map_ext
             (fun r => (rank_of (map Percent_Transit_Users rows')
                                (Percent_Transit_Users r), r))
             (fun r => (rank_of (map Percent_Transit_Users rows)
                                (Percent_Transit_Users r), r))).
  - now apply Permutation_map.
  - intros r. f_equal. apply rank_of_perm.
    apply Permutation_map. now apply Permutation_sym.
Qed.

Lemma ranking_row_order_independent_witness :
  Permutation (set_index_Rank (derive sample_seven_rows))
              (set_index_Rank (rev (derive sample_seven_rows))).
Proof.
  apply ranking_row_order_independent. apply Permutation_rev.
Defined.

(* ================================================================== *)
(** ** Statistics of the ranked table *)




Lemma set_index_Rank_rows (rows : list transit_row) :
  map snd (set_index_Rank rows) = rows.
Proof.
  rewrite set_index_Rank_map, map_map. cbn. apply map_id.
Qed.

Lemma rank_and_sort_rows (rows : list transit_row) :
  Permutation (map snd (rank_and_sort rows)) rows.
Proof.
  unfold rank_and_sort.
  rewrite (Permutation_map snd (sort_index_perm (set_index_Rank rows))).
  now rewrite set_index_Rank_rows.
Qed.


(* ================================================================== *)
(** ** Joining and filtering *)

Lemma filter_pairs (l : Tract.row) (K N : transit_row -> bool)
      (right : list transit_row) :
  filter (fun p : Tract.row * transit_row => N (snd p))
         (map (pair l) (filter K right)) =
  map (pair l) (filter K (filter N right)).
Proof.
  induction right as [ | r right IH]; [reflexivity |].
  cbn [filter]. destruct (K r) eqn:EK, (N r) eqn:EN; cbn [filter map snd];
    rewrite ?EK, ?EN; cbn [map]; now rewrite IH.
Qed.

(** X10: filtering the joined table on a defined percentage (In[43])
    gives the table that joining the tracts to the rows with a defined
    percentage would give. *)
Theorem filter_after_join_is_join_of_filtered
        (left : list Tract.row) (right : list transit_row) :
  filter_notnull (merge_on_FIPS left right) =
  merge_on_FIPS left
    (filter (fun r => notnull (Percent_Transit_Users r)) right).
Proof.
  unfold filter_notnull, merge_on_FIPS.
  induction left as [ | l left IH]; [reflexivity |].
  cbn [flat_map]. rewrite filter_app, IH. f_equal.
  apply (filter_pairs l (fun r => key_match (Tract.FIPS l) (FIPS r))
                      (fun r => notnull (Percent_Transit_Users r))).
Qed.

Lemma filter_unique_key (right : list transit_row) (k : option string) :
  NoDup (map FIPS right) ->
  (List.length (filter (fun r => key_match k (FIPS r)) right) <= 1)%nat.
Proof.
  induction right as [ | a right IH]; intros Hn; cbn; [lia |].
  inversion Hn as [ | ? ? Ha Hn']; subst.
  destruct (key_match k (FIPS a)) eqn:E; [ | now apply IH].
  cbn. rewrite (proj2 (length_zero_iff_nil _)); [lia |].
  destruct (filter (fun r => key_match k (FIPS r)) right) as [ | r rs] eqn:F;
    trivial.
  exfalso. apply Ha.
  assert (Hr : In r (filter (fun r => key_match k (FIPS r)) right))
    by (rewrite F; now left).
  apply filter_In in Hr. destruct Hr as [Hr Hk].
  unfold key_match in *. destruct k as [k | ]; [ | discriminate].
  apply String.eqb_eq in E, Hk.
  replace (FIPS a) with (FIPS r) by congruence. now apply in_map.
Qed.

Lemma existsb_filter {A : Type} (p : A -> bool) (l : list A) :
  existsb p l = match filter p l with [] => false | _ => true end.
Proof.
  induction l as [ | a l IH]; [reflexivity |].
  cbn. destruct (p a); trivial.
Qed.

(** X11: when the identifiers of the commuting table are pairwise
    distinct, the join keeps each tract at most once: the tract rows
    of the joined table are, in their order, the tract rows whose key
    occurs in the commuting table, and the joined table has no more
    rows than the tract table. *)
Theorem join_with_unique_identifiers
        (left : list Tract.row) (right : list transit_row) :
  NoDup (map FIPS right) ->
  map fst (merge_on_FIPS left right) =
  filter (fun l => existsb (fun r => key_match (Tract.FIPS l) (FIPS r)) right)
         left /\
  (List.length (merge_on_FIPS left right) <= List.length left)%nat.
Proof.
  intros Hn.
  assert (H : map fst (merge_on_FIPS left right) =
              filter (fun l => existsb (fun r => key_match (Tract.FIPS l)
                                                           (FIPS r)) right)
                     left).
  { unfold merge_on_FIPS. induction left as [ | l left IH]; [reflexivity |].
    cbn [flat_map filter]. rewrite map_app, IH, existsb_filter.
    pose proof (filter_unique_key right (Tract.FIPS l) Hn) as Hl.
    destruct (filter (fun r => key_match (Tract.FIPS l) (FIPS r)) right)
      as [ | r [ | r' rs]]; cbn in *; trivial; lia. }
  split; trivial.
  rewrite <- (length_map fst), H. apply filter_length_le.
Qed.

Lemma join_with_unique_identifiers_witness :
  let left := with_own_FIPS [("101122", []); ("980001", []); ("101110", [])] in
  let right := derive sample_rows in
  map fst (merge_on_FIPS left right) =
  filter (fun l => existsb (fun r => key_match (Tract.FIPS l) (FIPS r)) right)
         left /\
  (List.length (merge_on_FIPS left right) <= List.length left)%nat.
Proof.
  apply join_with_unique_identifiers.
  vm_compute. repeat constructor; cbn; intuition discriminate.
Defined.

(* ================================================================== *)
(** ** The inspection cells *)





Lemma Permutation_filter_rows {A : Type} (p : A -> bool) (l l' : list A) :
  Permutation l l' -> Permutation (filter p l) (filter p l').
Proof.
  induction 1 as [ | x l l' _ IH | x y l | l l' l'' _ IH1 _ IH2].
  - constructor.
  - cbn. destruct (p x); auto.
  - cbn. destruct (p x), (p y); auto. apply perm_swap.
  - etransitivity; eauto.
Qed.

Lemma filter_all {A : Type} (p : A -> bool) (l : list A) :
  Forall (fun x => p x = true) l -> filter p l = l.
Proof.
  induction 1 as [ | x l Hx _ IH]; [reflexivity |].
  cbn. now rewrite Hx, IH.
Qed.

Lemma filter_none {A : Type} (p : A -> bool) (l : list A) :
  Forall (fun x => p x = false) l -> filter p l = [].
Proof.
  induction 1 as [ | x l Hx _ IH]; [reflexivity |].
  cbn. now rewrite Hx, IH.
Qed.

Lemma skipn_In_app {A : Type} (n : nat) (l1 l2 : list A) (x : A) :
  (List.length l1 <= n)%nat -> In x (skipn n (l1 ++ l2)) -> In x l2.
Proof.
  intros Hn Hx. rewrite skipn_app in Hx.
  rewrite (skipn_all2 l1 Hn) in Hx. cbn in Hx.
  rewrite <- (firstn_skipn (n - List.length l1) l2).
  apply in_or_app. now right.
Qed.

(** X13: [tail()] of a ranked table shows the tracts without
    commuters: when at least five rows have an undefined percentage,
    every row shown has an undefined percentage and no rank. *)
Theorem tail_shows_undefined (rows : list transit_row) :
  (5 <= List.length
          (filter (fun r => isnull (Percent_Transit_Users r)) rows))%nat ->
  Forall (fun r => fst r = NaN /\ Percent_Transit_Users (snd r) = NaN)
         (df_tail (rank_and_sort rows)).
Proof.
  intros H5. set (t := rank_and_sort rows).
  pose proof (rank_and_sort_ranked_order rows) as Ho. fold t in Ho.
  destruct Ho as [_ [_ [_ [[l1 [l2 [Et [H1 H2]]]] _]]]].
  assert (Hc : List.length
                 (filter (fun r => isnull (Percent_Transit_Users r))
                         (map snd t)) = List.length l2).
  { rewrite Et, map_app, filter_app, length_app.
    rewrite (filter_none _ (map snd l1)), (filter_all _ (map snd l2)).
    - cbn. now rewrite length_map.
    - apply Forall_map. eapply Forall_impl; [ | exact H2].
      intros r [_ Hr]. now apply isnull_NaN.
    - apply Forall_map. eapply Forall_impl; [ | exact H1].
      intros r [_ Hr]. destruct (Percent_Transit_Users (snd r));
        trivial; contradiction. }
  rewrite (Permutation_length
             (Permutation_filter_rows _ _ _ (rank_and_sort_rows rows)))
    in Hc.
  apply Forall_forall. intros r Hr. unfold df_tail in Hr.
  rewrite Forall_forall in H2. apply H2.
  rewrite Et in Hr.
  apply (skipn_In_app (List.length (l1 ++ l2) - 5) l1 l2 r); trivial.
  rewrite length_app. lia.
Qed.

Lemma tail_shows_undefined_witness :
  Forall (fun r => fst r = NaN /\ Percent_Transit_Users (snd r) = NaN)
         (df_tail (rank_and_sort
                     (derive (sample_seven_rows ++
                              [ mk_acs_row "06037101500" 0 0;
                                mk_acs_row "06037101600" 0 0;
                                mk_acs_row "06037101700" 0 0 ])%list))).
Proof.
  apply tail_shows_undefined. vm_compute. lia.
Defined.

(* ================================================================== *)
(** ** Edge cases of the statistics *)

Lemma dropna_all_undefined (col : list float64) :
  Forall (fun x => x = NaN) col -> dropna col = [].
Proof.
  intros H. apply filter_none. eapply Forall_impl; [ | exact H].
  intros x ->. reflexivity.
Qed.

(** X14: a percentage column with no defined cell (an empty table, or
    tracts that all have zero commuters) raises nothing: the count is
    0 and the mean, the median and every other output of describe are
    NaN. *)
Theorem statistics_of_undefined_column (col : list float64) :
  Forall (fun x => x = NaN) col ->
  Series_mean col = NaN /\
  Series_median col = NaN /\
  Series_describe col =
    mk_description 0 NaN (Sqrt NaN) NaN NaN NaN NaN NaN.
Proof.
  intros H. apply dropna_all_undefined in H.
  unfold Series_describe, Series_count, Series_mean, Series_median,
    Series_std, Series_var, Series_min, Series_max, Series_quantile.
  rewrite H. repeat split.
Qed.

Lemma statistics_of_undefined_column_witness :
  let col := map Percent_Transit_Users
                 (derive [ mk_acs_row "06037101111" 0 0;
                           mk_acs_row "06037101300" 0 0 ]) in
  Series_mean col = NaN /\
  Series_median col = NaN /\
  Series_describe col =
    mk_description 0 NaN (Sqrt NaN) NaN NaN NaN NaN NaN.
Proof.
  apply statistics_of_undefined_column. repeat constructor.
Defined.

(* ================================================================== *)
(** ** Rows stay whole *)

Lemma derive_whole (rows : list acs_row) (r : transit_row) :
  In r (derive rows) ->
  Percent_Transit_Users r =
  transit_pct (Total_Transit_Users r) (Total_Commuters r).
Proof.
  intros H. apply derive_In in H. destruct H as [a [_ ->]]. reflexivity.
Qed.

(** X15: ranking, sorting, joining and filtering move whole rows.  In
    every table of a completed run, ranked, joined or filtered, the
    percentage of a row is the one derived from the two counts of that
    same row, and the commuting part of every joined row is a row of
    the ranked table of its year. *)
Theorem rows_stay_whole (fs : files) (out : outputs) :
  script fs = Ok out ->
  let whole := fun r =>
    Percent_Transit_Users r =
    transit_pct (Total_Transit_Users r) (Total_Commuters r) in
  Forall whole (map snd (ACS_22B out)) /\
  Forall whole (map snd (ACS_10B out)) /\
  Forall (fun p => whole (snd p) /\ In (snd p) (map snd (ACS_22B out)))
         (tracts_transit22 out) /\
  Forall (fun p => whole (snd p) /\ In (snd p) (map snd (ACS_10B out)))
         (tracts_transit10 out) /\
  Forall (fun p => whole (snd p) /\ In (snd p) (map snd (ACS_22B out)))
         (tracts_transit22b out) /\
  Forall (fun p => whole (snd p) /\ In (snd p) (map snd (ACS_10B out)))
         (tracts_transit10b out).
Proof.
  intros H whole. apply script_Ok in H.
  destruct H as [rows [sub [H22 [H10 [_ [_ [_ [_ [_ [_
                [Ht22 [Ht10 [Hb22 Hb10]]]]]]]]]]]]].
  assert (Hw : forall t, t = rank_and_sort (derive rows) ->
                         Forall whole (map snd t)).
  { intros t ->. apply Forall_forall. intros r Hr.
    apply (Permutation_in r (rank_and_sort_rows (derive rows))) in Hr.
    now apply (derive_whole rows). }
  assert (Hj : forall left (t : list (float64 * transit_row)),
             Forall whole (map snd t) ->
             Forall (fun p => whole (snd p) /\ In (snd p) (map snd t))
                    (merge_on_FIPS left (map snd t))).
  { intros left t Ht. apply Forall_forall. intros [l r] Hp.
    apply merge_on_FIPS_In in Hp. destruct Hp as [_ [Hr _]]. cbn.
    rewrite Forall_forall in Ht. auto. }
  assert (Hf : forall (P : Tract.row * transit_row -> Prop) t,
             Forall P t -> Forall P (filter_notnull t)).
  { intros P t Ht. apply Forall_forall. intros p Hp.
    apply filter_In in Hp. rewrite Forall_forall in Ht. now apply Ht. }
  rewrite Hb22, Hb10, Ht22, Ht10.
  repeat split; auto.
Qed.

Lemma rows_stay_whole_witness :
  exists out,
    script sample_files = Ok out /\
    let whole := fun r =>
      Percent_Transit_Users r =
      transit_pct (Total_Transit_Users r) (Total_Commuters r) in
    Forall whole (map snd (ACS_22B out)) /\
    Forall whole (map snd (ACS_10B out)) /\
    Forall (fun p => whole (snd p) /\ In (snd p) (map snd (ACS_22B out)))
           (tracts_transit22 out) /\
    Forall (fun p => whole (snd p) /\ In (snd p) (map snd (ACS_10B out)))
           (tracts_transit10 out) /\
    Forall (fun p => whole (snd p) /\ In (snd p) (map snd (ACS_22B out)))
           (tracts_transit22b out) /\
    Forall (fun p => whole (snd p) /\ In (snd p) (map snd (ACS_10B out)))
           (tracts_transit10b out).
Proof.
  eexists. split; [reflexivity |].
  apply (rows_stay_whole sample_files). reflexivity.
Defined.

(* ================================================================== *)
(** ** The sum of the ranks *)

Lemma order_cases (a x : float64) :
  a <> NaN -> x <> NaN ->
  (flt a x = true /\ flt x a = false /\ feq a x = false) \/
  (flt a x = false /\ flt x a = true /\ feq a x = false) \/
  (flt a x = false /\ flt x a = false /\ feq a x = true).
Proof.
  intros Ha Hx.
  destruct (flt a x) eqn:E1, (flt x a) eqn:E2, (feq a x) eqn:E3;
    auto; exfalso; float_order.
Qed.

(** The cells above [a], below [a] and tied with [a] are all cells. *)
Lemma count_partition (a : float64) (l : list float64) :
  a <> NaN -> Forall (fun x => x <> NaN) l ->
  (count_if (flt a) l + count_if (fun x => flt x a) l + count_if (feq a) l
   = List.length l)%nat.
Proof.
  intros Ha. induction 1 as [ | x l Hx _ IH]; [reflexivity |].
  rewrite !count_if_cons. cbn [List.length].
  destruct (order_cases a x Ha Hx) as [[-> [-> ->]] | [[-> [-> ->]] | [-> [-> ->]]]];
    lia.
Qed.

Lemma list_sum_cons (x : nat) (l : list nat) :
  list_sum (x :: l) = (x + list_sum l)%nat.
Proof. reflexivity. Qed.

Lemma list_sum_shift (f g : float64 -> nat) (p q : float64 -> bool)
      (l : list float64) :
  (forall x, In x l ->
             f x = (g x + 2 * (if p x then 1 else 0)
                    + (if q x then 1 else 0))%nat) ->
  list_sum (map f l) =
  (list_sum (map g l) + 2 * count_if p l + count_if q l)%nat.
Proof.
  induction l as [ | x l IH]; intros H; [reflexivity |].
  cbn [map]. rewrite !list_sum_cons, !count_if_cons.
  rewrite (H x (or_introl eq_refl)), IH; [lia |].
  intros y Hy. apply H. now right.
Qed.

Lemma rank_weight_sum (l : list float64) :
  Forall (fun x => x <> NaN) l ->
  list_sum (map (rank_weight l) l) = (List.length l * (List.length l + 1))%nat.
Proof.
  induction 1 as [ | a l Ha Hl IH]; [reflexivity |].
  cbn [map List.length]. rewrite list_sum_cons.
  rewrite (list_sum_shift (rank_weight (a :: l)) (rank_weight l)
                          (fun x => flt x a) (fun x => feq x a) l).
  - rewrite IH. unfold rank_weight. rewrite !count_if_cons.
    rewrite flt_irrefl, (feq_refl a Ha).
    pose proof (count_partition a l Ha Hl) as Hp.
    rewrite (count_if_ext (fun x => feq x a) (feq a) l) by
        (intros z _; destruct (feq z a) eqn:E1, (feq a z) eqn:E2; trivial;
         [apply feq_sym in E1 | apply feq_sym in E2]; congruence).
    nia.
  - intros x _. unfold rank_weight. rewrite !count_if_cons. lia.
Qed.

Lemma fsum_halves (n : float64 -> nat) (l : list float64) (a : nat) :
  fold_left fadd
            (map (fun x => Fin (Qred (inject_Z (Z.of_nat (n x)) / 2))) l)
            (Fin (Qred (inject_Z (Z.of_nat a) / 2))) =
  Fin (Qred (inject_Z (Z.of_nat (a + list_sum (map n l))) / 2)).
Proof.
  revert a. induction l as [ | x l IH]; intros a.
  - cbn. now rewrite Nat.add_0_r.
  - cbn [map fold_left fadd]. rewrite list_sum_cons.
    replace (Qred (Qred (inject_Z (Z.of_nat a) / 2) +
                   Qred (inject_Z (Z.of_nat (n x)) / 2)))
      with (Qred (inject_Z (Z.of_nat (a + n x)) / 2)).
    + rewrite IH. now rewrite Nat.add_assoc.
    + apply Qred_complete. rewrite !Qred_correct, inject_nat_plus. field.
Qed.

Lemma consecutive_even (n : nat) : exists m, (n * (n + 1) = 2 * m)%nat.
Proof.
  induction n as [ | n [m IH]]; [now exists 0%nat |].
  exists (m + n + 1)%nat. nia.
Qed.

(** X16: whatever the ties, the ranks of the K rows with a defined
    percentage add up to K (K + 1) / 2, the sum of 1 .. K: a group of
    tied rows gets the mean of the ranks it replaces. *)
Theorem ranks_sum (rows : list transit_row) :
  let K := Series_count (map Percent_Transit_Users rows) in
  fsum (defined_ranks (set_index_Rank rows)) = of_nat (K * (K + 1) / 2).
Proof.
  intros K. rewrite defined_ranks_map.
  set (col := map Percent_Transit_Users rows) in *.
  rewrite (map_ext_in
             (rank_of col)
             (fun x => Fin (Qred (inject_Z (Z.of_nat (rank_weight (dropna col) x))
                                  / 2)))).
  - unfold fsum. change (Fin 0) with (Fin (Qred (inject_Z (Z.of_nat 0) / 2))).
    rewrite fsum_halves, rank_weight_sum by apply dropna_defined.
    cbn [Nat.add]. fold (Series_count col). fold K.
    destruct (consecutive_even K) as [m Hm]. rewrite Hm.
    rewrite (Nat.mul_comm 2 m), Nat.div_mul by discriminate.
    unfold of_nat, of_int. f_equal.
    rewrite <- (Qred_inject_Z (Z.of_nat m)). apply Qred_complete.
    rewrite Nat2Z.inj_mul, inject_Z_mult.
    change (inject_Z (Z.of_nat 2)) with 2. field.
  - intros x Hx. apply dropna_In in Hx. destruct Hx as [_ Hx].
    rewrite (rank_of_value col x Hx). f_equal. apply Qred_complete.
    unfold rank_weight.
    rewrite (count_if_dropna (flt x) col), (count_if_dropna (feq x) col).
    + rewrite !Nat2Z.inj_add, Nat2Z.inj_mul, !inject_Z_plus, inject_Z_mult.
      change (inject_Z (Z.of_nat 2)) with 2.
      change (inject_Z (Z.of_nat 1)) with 1. field.
    + apply feq_defined.
    + intros z Hz ->. destruct x as [ | [ | ] | ?]; discriminate.
Qed.

(* ================================================================== *)
(** ** The median and the quartiles *)












(* ================================================================== *)
(** ** The mean within the range *)







(* ================================================================== *)
(** ** A run that completes *)



